(** * A model of the SpaceX launch dashboard (src/spacex_dash_app.py)

    The dashboard loads one CSV into a pandas DataFrame [spacex_df] at
    startup, builds a layout from it, and answers two callbacks:
    [get_pie_chart] and [get_scatter_chart].

    Modelling choices:
    - a DataFrame is a list of column names and a list of rows; a row has a
      field per column the code reads.  Reading a column that is not in the
      column list raises [KeyError], as pandas does;
    - payload masses are rationals; a missing (NaN) payload is [None];
      comparisons with NaN are false, as in pandas;
    - DataFrames live in a heap of cells; [spacex_df] is the cell at a fixed
      location, and every pandas operation that builds a new frame
      allocates a new cell, so that aliasing ([filtered_df = spacex_df])
      and in-place mutation ([status_counts.columns = ...]) are explicit;
    - a figure is the chart description handed to the renderer: its title
      and, for a pie, the slices after plotly aggregates equal labels, for
      a scatter, the rows it plots;
    - Python values arriving from the browser are JSON values: ints,
      (finite) floats, booleans, strings, None and lists. *)

From Stdlib Require Import QArith ZArith.
From stdpp Require Import base list strings sorting pretty.

Open Scope Z_scope.

(** ** Data model *)

Record row := mkRow {
  payload_mass : option Q;          (* 'Payload Mass (kg)', None = NaN *)
  launch_site : string;             (* 'Launch Site' *)
  cls : Z;                          (* 'class' *)
  booster_version_category : string (* 'Booster Version Category' *)
}.

Definition col_payload : string := "Payload Mass (kg)".
Definition col_site : string := "Launch Site".
Definition col_class : string := "class".
Definition col_booster : string := "Booster Version Category".

Record frame := mkFrame {
  columns : list string;
  rows : list row
}.

Inductive exn :=
| KeyError (what : string)
| ValueError (what : string)
| TypeError (what : string).

Inductive result (A : Type) :=
| Ok (a : A)
| Err (e : exn).
Arguments Ok {A} a.
Arguments Err {A} e.

(** Heap cells: a launch-record frame, or the two-column table built by
    [value_counts().reset_index()]. *)
Inductive cell :=
| CFrame (df : frame)
| CCounts (cols : list string) (data : list (string * Z)).

Abbreviation heap := (list cell).
Definition loc := nat.

(** A state and exception monad over the heap. *)
Definition M (A : Type) := heap -> result A * heap.

Definition ret {A} (a : A) : M A := fun h => (Ok a, h).
Definition raise {A} (e : exn) : M A := fun h => (Err e, h).
Definition bind {A B} (m : M A) (k : A -> M B) : M B :=
  fun h => match m h with
           | (Ok a, h') => k a h'
           | (Err e, h') => (Err e, h')
           end.

Notation "x <-- m ;; k" := (bind m (fun x => k))
  (at level 100, m at next level, right associativity).

(** Allocate a new object; its location is the current heap size. *)
Definition alloc (c : cell) : M loc := fun h => (Ok (length h), h ++ [c]).

(** Attribute assignment on an existing object. *)
Definition store (l : loc) (c : cell) : M unit := fun h => (Ok tt, <[l := c]> h).

Definition load_frame (l : loc) : M frame := fun h =>
  match h !! l with
  | Some (CFrame df) => (Ok df, h)
  | _ => (Err (TypeError "not a DataFrame"), h)
  end.

Definition load_counts (l : loc) : M (list string * list (string * Z)) := fun h =>
  match h !! l with
  | Some (CCounts cs d) => (Ok (cs, d), h)
  | _ => (Err (TypeError "not a DataFrame"), h)
  end.

(** [df[c]] raises [KeyError c] when [c] is not a column. *)
Definition require_col (c : string) (cs : list string) : M unit :=
  if decide (c ∈ cs) then ret tt else raise (KeyError c).

(** Plotly express checks each column argument ([x], [names], ...) against
    the frame and raises [ValueError] for a name that is not a column. *)
Definition px_col_error (arg c : string) : exn :=
  ValueError ("Value of '" ++ arg ++ "' is not the name of a column in 'data_frame'. Received: " ++ c).

Definition px_require (arg c : string) (cs : list string) : M unit :=
  if decide (c ∈ cs) then ret tt else raise (px_col_error arg c).

(** ** Pandas operations *)

(** Boolean-mask indexing [df[mask]]: a new frame with the same columns. *)
Definition filter_frame (p : row -> bool) (df : frame) : frame :=
  mkFrame (columns df) (filter (fun r => p r = true) (rows df)).

(** [Series.map({1: 'Success', 0: 'Failure'})]: other values become NaN. *)
Definition status_of (c : Z) : option string :=
  if decide (c = 1) then Some "Success"
  else if decide (c = 0) then Some "Failure"
  else None.

(** Add one occurrence of [k] to a count table, keeping first-seen order. *)
Fixpoint bump (k : string) (n : Z) (t : list (string * Z)) : list (string * Z) :=
  match t with
  | [] => [(k, n)]
  | (k', m) :: t' => if decide (k = k') then (k', m + n) :: t'
                     else (k', m) :: bump k n t'
  end.

(** Group [(label, value)] pairs by label, summing the values, in the
    order the labels first appear. *)
Definition group_sum (l : list (string * Z)) : list (string * Z) :=
  fold_left (fun t kv => bump kv.1 kv.2 t) l [].

(** [Series.value_counts()]: NaN dropped, one entry per distinct value,
    sorted by count in descending order (stable). *)
Definition count_ge (a b : string * Z) : Prop := b.2 <= a.2.
#[global] Instance count_ge_dec : RelDecision count_ge.
Proof. intros a b. unfold count_ge. apply _. Defined.
#[global] Instance count_ge_total : Total count_ge.
Proof. intros a b. unfold count_ge. lia. Qed.
#[global] Instance count_ge_trans : Transitive count_ge.
Proof. intros a b c. unfold count_ge. lia. Qed.

Definition value_counts (l : list (option string)) : list (string * Z) :=
  merge_sort count_ge (group_sum (omap (fun o => (fun s => (s, 1)) <$> o) l)).

(** ** Plotly express *)

(** A pie is described by its slices (label, value); a scatter by the rows
    it plots.  Plotly distributes the plotted rows into one trace per
    booster category, so only the rows of [points], with their
    multiplicities, are significant, not the order of the list. *)
Inductive figure :=
| Pie (title : string) (slices : list (string * Z))
| Scatter (title : string) (points : list row).

(** [px.pie(df, names=..., title=...)] over a launch frame: each row is
    one occurrence of its launch site; plotly merges equal labels. *)
Definition px_pie_names (df : frame) (title : string) : M figure :=
  _ <-- px_require "names" col_site (columns df) ;;
  ret (Pie title (group_sum (map (fun r => (launch_site r, 1)) (rows df)))).

(** [px.pie(status_counts, values='count', names='status', title=...)]. *)
Definition px_pie_values (cs : list string) (d : list (string * Z))
    (title : string) : M figure :=
  _ <-- px_require "names" "status" cs ;;
  _ <-- px_require "values" "count" cs ;;
  ret (Pie title (group_sum d)).

(** [px.scatter(df, x='Payload Mass (kg)', y='class',
    color='Booster Version Category', title=...)]. *)
Definition px_scatter (df : frame) (title : string) : M figure :=
  _ <-- px_require "x" col_payload (columns df) ;;
  _ <-- px_require "y" col_class (columns df) ;;
  _ <-- px_require "color" col_booster (columns df) ;;
  ret (Scatter title (rows df)).

(** The points a scatter shows: x, y and color of each plotted row. *)
Definition scatter_points (pts : list row) : list (option Q * Z * string) :=
  map (fun r => (payload_mass r, cls r, booster_version_category r)) pts.

(** ** Callback get_pie_chart (lines 81-103) *)

Definition get_pie_chart (spacex_df : loc) (entered_site : string) : M figure :=
  let filtered_df := spacex_df in
  if decide (entered_site = "ALL") then
    df <-- load_frame filtered_df ;;
    _ <-- require_col col_class (columns df) ;;
    successful_launches_df <-- alloc (CFrame (filter_frame (fun r => bool_decide (cls r = 1)) df)) ;;
    sdf <-- load_frame successful_launches_df ;;
    px_pie_names sdf "Total Successful Launches by Site"
  else
    df <-- load_frame filtered_df ;;
    _ <-- require_col col_site (columns df) ;;
    site_filtered_df <-- alloc (CFrame (filter_frame (fun r => bool_decide (launch_site r = entered_site)) df)) ;;
    sf <-- load_frame site_filtered_df ;;
    _ <-- require_col col_class (columns sf) ;;
    status_counts <-- alloc (CCounts [col_class; "count"]
                               (value_counts (map (fun r => status_of (cls r)) (rows sf)))) ;;
    sc <-- load_counts status_counts ;;
    (* status_counts.columns = ['status', 'count'] *)
    _ <-- (if decide (length sc.1 = 2%nat) then store status_counts (CCounts ["status"; "count"] sc.2)
           else raise (ValueError "Length mismatch")) ;;
    sc' <-- load_counts status_counts ;;
    px_pie_values sc'.1 sc'.2 ("Successful vs. Failed Launches for site " +:+ entered_site).

(** ** Values received from the browser *)

(** The JSON values Dash passes to a callback, as the Python values it
    builds: int, float, bool, str, None, list, and dict for a JSON object
    (string keys, in order). *)
#[warnings="-register-all"]
Inductive pyval :=
| PyInt (z : Z)
| PyFloat (q : Q)
| PyBool (b : bool)
| PyStr (s : string)
| PyNone
| PyList (l : list pyval)
| PyDict (kvs : list (string * pyval)).   (* a JSON object, keys in order *)

(** Tuple unpacking [low, high = payload_range]. *)
Definition unpack2 (v : pyval) : result (pyval * pyval) :=
  match v with
  | PyList [a; b] => Ok (a, b)
  | PyList _ => Err (ValueError "wrong number of values to unpack")
  | PyStr (String c1 (String c2 EmptyString)) =>
      Ok (PyStr (String c1 EmptyString), PyStr (String c2 EmptyString))
  | PyStr _ => Err (ValueError "wrong number of values to unpack")
  | PyDict [(k1, _); (k2, _)] => Ok (PyStr k1, PyStr k2)
  | PyDict _ => Err (ValueError "wrong number of values to unpack")
  | _ => Err (TypeError "cannot unpack non-iterable object")
  end.

(** [isinstance(v, collections.abc.Sequence)]: lists and strings are
    sequences; a dict is a mapping. *)
Definition is_sequence (v : pyval) : bool :=
  match v with
  | PyList _ | PyStr _ => true
  | _ => false
  end.

Definition lift {A} (r : result A) : M A := fun h => (r, h).

(** [isinstance(v, (int, float))]; [bool] is a subclass of [int]. *)
Definition is_number (v : pyval) : bool :=
  match v with
  | PyInt _ | PyFloat _ | PyBool _ => true
  | _ => false
  end.

(** The numeric value of an [int] or [float] (only used when [is_number]). *)
Definition num_val (v : pyval) : Q :=
  match v with
  | PyInt z => inject_Z z
  | PyFloat q => q
  | PyBool b => if b then 1%Q else 0%Q
  | _ => 0%Q
  end.

(** [(payload >= low) & (payload <= high)]; NaN compares false. *)
Definition in_range (low high : Q) (r : row) : bool :=
  match payload_mass r with
  | Some p => Qle_bool low p && Qle_bool p high
  | None => false
  end.

(** [df.copy()] *)
Definition copy_frame (df : frame) : frame := mkFrame (columns df) (rows df).

(** ** Callback get_scatter_chart (lines 111-143) *)

Definition get_scatter_chart (spacex_df : loc) (entered_site : string)
    (payload_range : pyval) : M figure :=
  lh <-- lift (unpack2 payload_range) ;;
  df <-- load_frame spacex_df ;;
  if decide (col_payload ∉ columns df) then
    ret (Scatter "Payload Mass (kg) column missing" [])
  else
    current_filtered_df <--
      (if negb (is_number lh.1 && is_number lh.2) then
         alloc (CFrame (copy_frame df))
       else
         alloc (CFrame (filter_frame (in_range (num_val lh.1) (num_val lh.2)) df))) ;;
    if decide (entered_site = "ALL") then
      cdf <-- load_frame current_filtered_df ;;
      px_scatter cdf "Payload vs. Launch Outcome for All Sites"
    else
      cdf <-- load_frame current_filtered_df ;;
      _ <-- require_col col_site (columns cdf) ;;
      site_filtered_df <-- alloc (CFrame (filter_frame (fun r => bool_decide (launch_site r = entered_site)) cdf)) ;;
      sdf <-- load_frame site_filtered_df ;;
      px_scatter sdf ("Payload vs. Launch Outcome for site " +:+ entered_site).

(** ** Startup: loading the CSV (lines 12-22) *)

(** What [pd.read_csv] did. *)
Inductive read_outcome :=
| ReadOk (df : frame)
| ReadFileNotFound
| ReadOtherError (e : exn).

Definition not_found_message : string :=
  "Error: 'spacex_launch_dash.csv' not found. Please ensure the file is in the correct directory.".

Definition placeholder_df : frame :=
  mkFrame [col_payload; col_site; col_class; col_booster]
          [mkRow (Some 0%Q) "Default" 0 "Default"].

(** Lines printed and the frame bound to [spacex_df] (or the exception
    that escapes the module). *)
Definition load_spacex_df (r : read_outcome) : list string * result frame :=
  match r with
  | ReadOk df => ([], Ok df)
  | ReadFileNotFound => ([not_found_message], Ok placeholder_df)
  | ReadOtherError e => ([], Err e)
  end.

(** ** Startup: the layout (lines 24-74) *)

(** [Series.max()] / [Series.min()]: NaN skipped; NaN when nothing is left. *)
Definition max_step (acc o : option Q) : option Q :=
  match o, acc with
  | Some x, Some m => Some (if Qle_bool m x then x else m)
  | Some x, None => Some x
  | None, _ => acc
  end.

Definition min_step (acc o : option Q) : option Q :=
  match o, acc with
  | Some x, Some m => Some (if Qle_bool m x then m else x)
  | Some x, None => Some x
  | None, _ => acc
  end.

Definition pd_max (l : list (option Q)) : option Q := fold_left max_step l None.

Definition pd_min (l : list (option Q)) : option Q := fold_left min_step l None.

(** [Series.unique()]: distinct values in order of first appearance. *)
Fixpoint unique_aux (seen : list string) (l : list string) : list string :=
  match l with
  | [] => []
  | x :: l' => if decide (x ∈ seen) then unique_aux seen l'
               else x :: unique_aux (x :: seen) l'
  end.

Definition unique (l : list string) : list string := unique_aux [] l.

(** Python's [range(start, stop, step)] for [step > 0]. *)
Definition py_range (start stop step : Z) : list Z :=
  map (fun k => start + step * Z.of_nat k)
      (seq 0 (Z.to_nat ((stop - start + step - 1) / step))).

(** [x if pd.notna(x) else d] *)
Definition notna_or (x : option Q) (d : Q) : Q :=
  match x with Some q => q | None => d end.

Record dropdown := mkDropdown {
  dd_options : list (string * string);   (* (label, value) *)
  dd_value : string
}.

Record range_slider := mkRangeSlider {
  rs_min : Z;
  rs_max : Z;
  rs_step : Z;
  rs_marks : list (Z * string);
  rs_value : Q * Q
}.

Record layout := mkLayout {
  site_dropdown : dropdown;
  payload_slider : range_slider
}.

Definition build_layout (spacex_df : frame) : result layout :=
  if decide (col_payload ∉ columns spacex_df) then Err (KeyError col_payload) else
  let max_payload := pd_max (map payload_mass (rows spacex_df)) in
  let min_payload := pd_min (map payload_mass (rows spacex_df)) in
  if decide (col_site ∉ columns spacex_df) then Err (KeyError col_site) else
  Ok (mkLayout
        (mkDropdown
           (("All Sites", "ALL") ::
            map (fun site => (site, site)) (unique (map launch_site (rows spacex_df))))
           "ALL")
        (mkRangeSlider 0 10000 1000
           (map (fun i => (i, pretty i)) (py_range 0 10001 1000))
           (notna_or min_payload 0%Q, notna_or max_payload 10000%Q))).

(** ** The example of the spec *)

Definition four_cols : list string := [col_payload; col_site; col_class; col_booster].

Definition example_df : frame :=
  mkFrame four_cols
    [mkRow (Some 500%Q) "A" 1 "B1";
     mkRow (Some 500%Q) "A" 0 "B2";
     mkRow (Some 9000%Q) "B" 1 "B1"].

Definition example_heap : heap := [CFrame example_df].

(** A dataset whose file lacks the payload column. *)
Definition no_payload_df : frame :=
  mkFrame [col_site; col_class; col_booster] [mkRow None "A" 1 "B1"].

Definition no_payload_heap : heap := [CFrame no_payload_df].

(** The rows the example's scatter plots for the interval [0, 1000]. *)
Definition example_light_rows : list row :=
  [mkRow (Some 500%Q) "A" 1 "B1"; mkRow (Some 500%Q) "A" 0 "B2"].

(** The example with one more failed launch and one row whose class is
    neither 0 nor 1: the same successful launches. *)
Definition example_more_df : frame :=
  mkFrame four_cols
    (rows example_df ++ [mkRow (Some 3000%Q) "C" 0 "B3"; mkRow None "A" 2 "B2"]).

Definition example_more_heap : heap := [CFrame example_more_df].

(** A dataset without the outcome column. *)
Definition no_class_df : frame :=
  mkFrame [col_payload; col_site; col_booster] [mkRow (Some 500%Q) "A" 1 "B1"].

Definition no_class_heap : heap := [CFrame no_class_df].

(** A dataset without the launch site column. *)
Definition no_site_df : frame :=
  mkFrame [col_payload; col_class; col_booster] [mkRow (Some 500%Q) "A" 1 "B1"].

Definition no_site_heap : heap := [CFrame no_site_df].

(** A dataset with a launch site literally named "ALL". *)
Definition all_named_df : frame :=
  mkFrame four_cols [mkRow (Some 500%Q) "ALL" 1 "B1"; mkRow (Some 700%Q) "A" 0 "B2"].

(** ** Auxiliary definitions for the statements *)

(** The total value carried by label [k] in a list of slices. *)
Fixpoint total (k : string) (t : list (string * Z)) : Z :=
  match t with
  | [] => 0
  | kv :: t' => (if decide (kv.1 = k) then kv.2 else 0) + total k t'
  end.

(** The sum of all slice values. *)
Fixpoint sum_values (t : list (string * Z)) : Z :=
  match t with
  | [] => 0
  | kv :: t' => kv.2 + sum_values t'
  end.

(** Number of rows of a frame satisfying [p]. *)
Definition count_rows (p : row -> Prop) `{forall r, Decision (p r)} (ds : frame) : Z :=
  Z.of_nat (length (filter p (rows ds))).

(** The columns the input CSV is expected to have. *)
Definition well_formed (ds : frame) : Prop :=
  col_payload ∈ columns ds /\ col_site ∈ columns ds /\
  col_class ∈ columns ds /\ col_booster ∈ columns ds.

(** Outcome classes are binary. *)
Definition binary_classes (ds : frame) : Prop :=
  Forall (fun r => cls r = 0 \/ cls r = 1) (rows ds).

(** Every slice has a positive value. *)
Definition positive_slices (t : list (string * Z)) : Prop :=
  Forall (fun kv => 0 < kv.2) t.

(** The (label, 1) occurrences the site pie counts: one per row whose
    class maps to a label. *)
Definition status_ones (l : list row) : list (string * Z) :=
  omap (fun o => (fun s => (s, 1)) <$> o) (map (fun r => status_of (cls r)) l).

(** What [px.scatter] returns, with the columns it checks in order. *)
Definition px_scatter_result (df : frame) (title : string) : result figure :=
  if decide (col_payload ∈ columns df) then
    if decide (col_class ∈ columns df) then
      if decide (col_booster ∈ columns df) then Ok (Scatter title (rows df))
      else Err (px_col_error "color" col_booster)
    else Err (px_col_error "y" col_class)
  else Err (px_col_error "x" col_payload).

(** The title of the scatter chart for a selected site. *)
Definition scatter_title (S : string) : string :=
  if decide (S = "ALL") then "Payload vs. Launch Outcome for All Sites"
  else "Payload vs. Launch Outcome for site " +:+ S.

(** The rows kept by the payload filter (or all rows, in the fallback). *)
Definition payload_rows (a b : pyval) (ds : frame) : list row :=
  if is_number a && is_number b then
    filter (fun r => in_range (num_val a) (num_val b) r = true) (rows ds)
  else rows ds.

(** A computation keeps the first [n] heap objects: run on a heap that
    has them, it neither drops nor changes any of them. *)
Definition keeps (n : nat) {A} (m : M A) : Prop :=
  forall h, (n <= length h)%nat ->
    (n <= length (m h).2)%nat /\ forall i, (i < n)%nat -> (m h).2 !! i = h !! i.

(** ** Slices: grouping by label *)

Section Grouping.

Implicit Types (t l : list (string * Z)) (k : string) (n : Z).

Lemma total_bump k n t k' :
  total k' (bump k n t) = total k' t + (if decide (k = k') then n else 0).
Proof.
  induction t as [|[k0 m] t IH]; simpl.
  - destruct (decide (k = k')); lia.
  - destruct (decide (k = k0)) as [->|Hne]; simpl.
    + destruct (decide (k0 = k')); lia.
    + rewrite IH. lia.
Qed.

Lemma total_fold k l t :
  total k (fold_left (fun t kv => bump kv.1 kv.2 t) l t) = total k t + total k l.
Proof.
  revert t. induction l as [|[k0 m] l IH]; intros t; simpl.
  - lia.
  - rewrite IH, total_bump. simpl. lia.
Qed.

Lemma total_group_sum k l : total k (group_sum l) = total k l.
Proof. unfold group_sum. rewrite total_fold. simpl. lia. Qed.

Lemma sum_bump k n t : sum_values (bump k n t) = sum_values t + n.
Proof.
  induction t as [|[k0 m] t IH]; simpl.
  - lia.
  - destruct (decide (k = k0)); simpl; [|rewrite IH]; lia.
Qed.

Lemma sum_group_sum l : sum_values (group_sum l) = sum_values l.
Proof.
  unfold group_sum.
  assert (forall t, sum_values (fold_left (fun t kv => bump kv.1 kv.2 t) l t)
                    = sum_values t + sum_values l) as G.
  { induction l as [|[k0 m] l IH]; intros t; simpl; [lia|].
    rewrite IH, sum_bump. simpl. lia. }
  rewrite G. simpl. lia.
Qed.

Lemma in_bump_labels k n t x :
  x ∈ map fst (bump k n t) <-> x = k \/ x ∈ map fst t.
Proof.
  induction t as [|[k0 m] t IH]; simpl.
  - rewrite list_elem_of_singleton, elem_of_nil. tauto.
  - destruct (decide (k = k0)) as [->|]; simpl; [rewrite !elem_of_cons; tauto|].
    rewrite !elem_of_cons, IH. tauto.
Qed.

Lemma nodup_bump k n t : NoDup (map fst t) -> NoDup (map fst (bump k n t)).
Proof.
  induction t as [|[k0 m] t IH]; simpl; intros Hnd.
  - apply NoDup_singleton.
  - apply NoDup_cons in Hnd as [Hnin Hnd'].
    destruct (decide (k = k0)) as [->|Hne]; simpl.
    + apply NoDup_cons; done.
    + apply NoDup_cons; split; [|auto].
      rewrite in_bump_labels. intros [->|]; [congruence|contradiction].
Qed.

Lemma nodup_group_sum l : NoDup (map fst (group_sum l)).
Proof.
  unfold group_sum.
  assert (forall t, NoDup (map fst t) ->
          NoDup (map fst (fold_left (fun t kv => bump kv.1 kv.2 t) l t))) as G.
  { induction l as [|kv l IH]; intros t Ht; simpl; [done|].
    apply IH, nodup_bump, Ht. }
  apply G. constructor.
Qed.

Lemma pos_bump k n t : 0 < n -> positive_slices t -> positive_slices (bump k n t).
Proof.
  unfold positive_slices.
  induction t as [|[k0 m] t IH]; simpl; intros Hn Ht.
  - repeat constructor. simpl. lia.
  - inversion Ht; subst. destruct (decide (k = k0)); constructor; simpl in *; auto; lia.
Qed.

Lemma pos_group_sum l : positive_slices l -> positive_slices (group_sum l).
Proof.
  unfold group_sum.
  assert (forall t, positive_slices l -> positive_slices t ->
          positive_slices (fold_left (fun t kv => bump kv.1 kv.2 t) l t)) as G.
  { induction l as [|kv l IH]; intros t Hl Ht; simpl; [done|].
    inversion Hl; subst. apply IH; [done|]. apply pos_bump; done. }
  intros Hl. apply G; [done|constructor].
Qed.

Lemma total_notin k t : k ∉ map fst t -> total k t = 0.
Proof.
  induction t as [|[k0 m] t IH]; simpl; intros Hn; [done|].
  rewrite elem_of_cons in Hn.
  destruct (decide (k0 = k)); [naive_solver|]. rewrite IH; [lia|naive_solver].
Qed.

Lemma total_nonneg k t : positive_slices t -> 0 <= total k t.
Proof.
  unfold positive_slices. induction t as [|[k0 m] t IH]; simpl; intros Ht; [lia|].
  inversion Ht; subst. simpl in *. specialize (IH ltac:(done)).
  destruct (decide (k0 = k)); lia.
Qed.

(** In a list of positive slices with distinct labels, a slice is exactly
    a label with a positive total, paired with that total. *)
Lemma in_slices_iff k n t :
  NoDup (map fst t) -> positive_slices t ->
  (k, n) ∈ t <-> 0 < n /\ n = total k t.
Proof.
  induction t as [|[k0 m] t IH]; simpl; intros Hnd Hpos.
  - rewrite elem_of_nil. split; [tauto|]. lia.
  - apply NoDup_cons in Hnd as [Hnin Hnd'].
    inversion Hpos as [|? ? Hm Hpos']; subst. simpl in Hm.
    specialize (IH Hnd' Hpos').
    rewrite elem_of_cons.
    destruct (decide (k0 = k)) as [->|Hne].
    + rewrite (total_notin k t Hnin). split.
      * intros [Heq|Hin]; [injection Heq as <-; lia|].
        exfalso. apply Hnin. apply list_elem_of_In in Hin. apply list_elem_of_In.
        apply (in_map fst) in Hin. exact Hin.
      * intros [_ ->]. left. f_equal. lia.
    + rewrite <- IH. split.
      * intros [Heq|Hin]; [injection Heq; congruence|done].
      * intros Hin. right. done.
Qed.

Lemma total_perm k t t' : Permutation t t' -> total k t = total k t'.
Proof. induction 1; simpl; lia. Qed.

Lemma sum_perm t t' : Permutation t t' -> sum_values t = sum_values t'.
Proof. induction 1; simpl; lia. Qed.

Lemma total_ones {X} (f : X -> string) (l : list X) k :
  total k (map (fun x => (f x, 1)) l) = Z.of_nat (length (filter (fun x => f x = k) l)).
Proof.
  induction l as [|x l IH]; simpl; [done|].
  rewrite filter_cons. destruct (decide (f x = k)); simpl; lia.
Qed.

Lemma sum_ones {X} (f : X -> string) (l : list X) :
  sum_values (map (fun x => (f x, 1)) l) = Z.of_nat (length l).
Proof. induction l; simpl; lia. Qed.

End Grouping.

(** ** The heap primitives *)

Section HeapFacts.

Implicit Types (h : heap) (c : cell).

Lemma lookup_alloc h c : (h ++ [c]) !! length h = Some c.
Proof. apply list_lookup_middle. done. Qed.

Lemma lookup_alloc_old h c l c' : h !! l = Some c' -> (h ++ [c]) !! l = Some c'.
Proof. intros Hl. rewrite lookup_app_l; [done|]. apply lookup_lt_Some in Hl. done. Qed.

Lemma require_col_in {A} (name : string) (cs : list string) (k : unit -> M A) h :
  name ∈ cs -> bind (require_col name cs) k h = k tt h.
Proof. intros Hin. unfold bind, require_col. rewrite decide_True by done. done. Qed.

Lemma require_col_out {A} (name : string) (cs : list string) (k : unit -> M A) h :
  name ∉ cs -> bind (require_col name cs) k h = (Err (KeyError name), h).
Proof. intros Hn. unfold bind, require_col. rewrite decide_False by done. done. Qed.

Lemma px_require_in {A} (arg name : string) (cs : list string) (k : unit -> M A) h :
  name ∈ cs -> bind (px_require arg name cs) k h = k tt h.
Proof. intros Hin. unfold bind, px_require. rewrite decide_True by done. done. Qed.

Lemma px_require_out {A} (arg name : string) (cs : list string) (k : unit -> M A) h :
  name ∉ cs -> bind (px_require arg name cs) k h = (Err (px_col_error arg name), h).
Proof. intros Hn. unfold bind, px_require. rewrite decide_False by done. done. Qed.

Lemma load_frame_at {A} l df (k : frame -> M A) h :
  h !! l = Some (CFrame df) -> bind (load_frame l) k h = k df h.
Proof. intros Hl. unfold bind, load_frame. rewrite Hl. done. Qed.

Lemma load_counts_at {A} l cs d (k : _ -> M A) h :
  h !! l = Some (CCounts cs d) -> bind (load_counts l) k h = k (cs, d) h.
Proof. intros Hl. unfold bind, load_counts. rewrite Hl. done. Qed.

Lemma alloc_bind {A} c (k : loc -> M A) h : bind (alloc c) k h = k (length h) (h ++ [c]).
Proof. done. Qed.

Lemma store_bind {A} l c (k : unit -> M A) h : bind (store l c) k h = k tt (<[l := c]> h).
Proof. done. Qed.

Lemma ret_bind {A B} (a : A) (k : A -> M B) h : bind (ret a) k h = k a h.
Proof. done. Qed.

End HeapFacts.

Ltac run_heap :=
  repeat first
    [ rewrite alloc_bind
    | rewrite ret_bind
    | rewrite store_bind
    | rewrite require_col_in by (simpl; done)
    | rewrite px_require_in by (simpl; done)
    | erewrite load_frame_at by (first [apply lookup_alloc | apply lookup_alloc_old; done | done])
    | erewrite load_counts_at by (first [apply lookup_alloc | apply lookup_alloc_old; done | done
                                        | apply list_lookup_insert_eq; rewrite ?length_app; simpl; lia]) ].

Lemma pos_ones {X} (f : X -> string) (l : list X) :
  positive_slices (map (fun x => (f x, 1)) l).
Proof.
  unfold positive_slices. induction l; simpl; constructor; simpl; auto; lia.
Qed.

Lemma filter_bool_decide {X} (P : X -> Prop) `{forall x, Decision (P x)} (l : list X) :
  filter (fun x => bool_decide (P x) = true) l = filter P l.
Proof. apply list_filter_iff. intros x. apply bool_decide_eq_true. Qed.

(** Slices built from one occurrence per row: which labels appear, with
    which values. *)
Lemma slices_of_ones {X} (f : X -> string) (l : list X) k n :
  (k, n) ∈ group_sum (map (fun x => (f x, 1)) l) <->
  0 < n /\ n = Z.of_nat (length (filter (fun x => f x = k) l)).
Proof.
  rewrite in_slices_iff.
  - rewrite total_group_sum, total_ones. done.
  - apply nodup_group_sum.
  - apply pos_group_sum, pos_ones.
Qed.

(** ** C1: the pie chart for all sites *)

(** C1: with selected site "ALL", the pie callback keeps the rows of class 1,
    groups them by launch site and returns one slice per site whose value is
    that site's number of successful launches: a label appears exactly when
    the site has a success, labels are distinct, the values add up to the
    number of rows of class 1, and the title is
    "Total Successful Launches by Site". *)
Theorem pie_all_sites (h : heap) (spacex_df : loc) (ds : frame) :
  h !! spacex_df = Some (CFrame ds) ->
  col_site ∈ columns ds -> col_class ∈ columns ds ->
  exists slices,
    (get_pie_chart spacex_df "ALL" h).1 =
      Ok (Pie "Total Successful Launches by Site" slices) /\
    NoDup (map fst slices) /\
    (forall site n, (site, n) ∈ slices <->
       0 < n /\ n = count_rows (fun r => cls r = 1 /\ launch_site r = site) ds) /\
    sum_values slices = count_rows (fun r => cls r = 1) ds.
Proof.
  intros Hl Hsite Hclass.
  unfold get_pie_chart. rewrite decide_True by done.
  run_heap. unfold px_pie_names. run_heap.
  eexists. split; [reflexivity|]. simpl.
  rewrite filter_bool_decide. split; [|split].
  - apply nodup_group_sum.
  - intros site n. rewrite slices_of_ones, list_filter_filter.
    unfold count_rows.
    rewrite (list_filter_iff (fun a => launch_site a = site /\ cls a = 1)
                             (fun r => cls r = 1 /\ launch_site r = site)); [done|].
    intros r. tauto.
  - rewrite sum_group_sum, sum_ones. done.
Qed.

(** Witness: the example dataset of the spec. *)
Lemma pie_all_sites_witness :
  exists slices,
    (get_pie_chart 0%nat "ALL" example_heap).1 =
      Ok (Pie "Total Successful Launches by Site" slices) /\
    NoDup (map fst slices) /\
    (forall site n, (site, n) ∈ slices <->
       0 < n /\ n = count_rows (fun r => cls r = 1 /\ launch_site r = site) example_df) /\
    sum_values slices = count_rows (fun r => cls r = 1) example_df.
Proof.
  apply (pie_all_sites example_heap 0%nat example_df);
    [reflexivity | unfold example_df, four_cols; simpl; apply (bool_decide_unpack _); vm_compute; reflexivity .. ].
Defined.

(** ** C2: the pie chart for one site *)

Lemma status_ones_cons r l :
  status_ones (r :: l) =
  match status_of (cls r) with
  | Some s => (s, 1) :: status_ones l
  | None => status_ones l
  end.
Proof. unfold status_ones. simpl. destruct (status_of (cls r)); done. Qed.

Lemma total_status_ones k (l : list row) :
  total k (status_ones l) =
  Z.of_nat (length (filter (fun r => status_of (cls r) = Some k) l)).
Proof.
  induction l as [|r l IH]; [done|].
  rewrite status_ones_cons, filter_cons.
  destruct (status_of (cls r)) as [s|] eqn:Hs; simpl.
  - rewrite IH. destruct (decide (s = k)) as [E1|E1];
      destruct (decide (Some s = Some k)) as [E|E]; simpl; try congruence; lia.
  - rewrite IH. destruct (decide (None = Some k)); [congruence|done].
Qed.

Lemma sum_status_ones (l : list row) :
  Forall (fun r => cls r = 0 \/ cls r = 1) l ->
  sum_values (status_ones l) = Z.of_nat (length l).
Proof.
  induction 1 as [|r l Hr Hl IH]; [done|].
  rewrite status_ones_cons. unfold status_of at 1.
  destruct Hr as [E | E]; rewrite E; simpl; rewrite IH; lia.
Qed.

Lemma pos_status_ones (l : list row) : positive_slices (status_ones l).
Proof.
  unfold positive_slices. induction l as [|r l IH]; [constructor|].
  rewrite status_ones_cons.
  destruct (status_of (cls r)); [constructor; simpl; [lia|]|]; done.
Qed.

Lemma status_of_some c k :
  status_of c = Some k <-> (k = "Success" /\ c = 1) \/ (k = "Failure" /\ c = 0).
Proof.
  unfold status_of.
  destruct (decide (c = 1)) as [->|H1]; [|destruct (decide (c = 0)) as [->|H0]].
  - split; [intros [= <-]; left; done|]. intros [[-> _]|[_ E]]; [done|discriminate].
  - split; [intros [= <-]; right; done|]. intros [[_ E]|[-> _]]; [discriminate|done].
  - split; [discriminate|]. intros [[_ E]|[_ E]]; congruence.
Qed.

Lemma filter_none {X} (l : list X) : filter (fun _ => False) l = [].
Proof. induction l; [done|]. rewrite filter_cons_False; auto. Qed.

Lemma forall_filter {X} (P Q : X -> Prop) `{forall x, Decision (Q x)} (l : list X) :
  Forall P l -> Forall P (filter Q l).
Proof.
  induction 1; [constructor|]. rewrite filter_cons.
  destruct (decide (Q x)); [constructor|]; done.
Qed.

Lemma value_counts_perm (l : list row) :
  Permutation (value_counts (map (fun r => status_of (cls r)) l))
              (group_sum (status_ones l)).
Proof. unfold value_counts. apply merge_sort_Permutation. Qed.

(** C2: with a selected site [S] other than "ALL", the pie callback keeps
    the rows of site [S] and returns slices labelled only "Success" and
    "Failure", each present with a positive value (no zero-valued slice);
    the "Success" value is the number of class-1 rows of [S], the "Failure"
    value the number of class-0 rows, the values add up to the number of
    rows of [S], and when [S] has no rows the chart has no slices and is no
    error.  The title names [S]. *)
Theorem pie_one_site (h : heap) (spacex_df : loc) (ds : frame) (S : string) :
  h !! spacex_df = Some (CFrame ds) ->
  col_site ∈ columns ds -> col_class ∈ columns ds ->
  binary_classes ds -> S <> "ALL" ->
  exists slices,
    (get_pie_chart spacex_df S h).1 =
      Ok (Pie ("Successful vs. Failed Launches for site " +:+ S) slices) /\
    NoDup (map fst slices) /\
    (forall k n, (k, n) ∈ slices -> (k = "Success" \/ k = "Failure") /\ 0 < n) /\
    total "Success" slices = count_rows (fun r => launch_site r = S /\ cls r = 1) ds /\
    total "Failure" slices = count_rows (fun r => launch_site r = S /\ cls r = 0) ds /\
    sum_values slices = count_rows (fun r => launch_site r = S) ds /\
    (count_rows (fun r => launch_site r = S) ds = 0 -> slices = []).
Proof.
  intros Hl Hsite Hclass Hbin HS.
  unfold get_pie_chart. rewrite decide_False by done.
  run_heap. simpl. run_heap.
  unfold px_pie_values. run_heap.
  eexists. split; [reflexivity|]. simpl.
  rewrite filter_bool_decide.
  set (rs := filter (fun r => launch_site r = S) (rows ds)).
  set (vc := value_counts (map (fun r => status_of (cls r)) rs)).
  assert (Hperm : Permutation vc (group_sum (status_ones rs))) by apply value_counts_perm.
  assert (Hpos : positive_slices vc).
  { unfold positive_slices. rewrite Hperm.
    apply pos_group_sum, pos_status_ones. }
  assert (Htot : forall k, total k (group_sum vc) =
                 Z.of_nat (length (filter (fun r => status_of (cls r) = Some k) rs))).
  { intros k. rewrite total_group_sum, (total_perm _ _ _ Hperm), total_group_sum.
    apply total_status_ones. }
  assert (Hcount : forall k, Z.of_nat (length (filter (fun r => status_of (cls r) = Some k) rs)) =
     count_rows (fun r => launch_site r = S /\
                   ((k = "Success" /\ cls r = 1) \/ (k = "Failure" /\ cls r = 0))) ds).
  { intros k. unfold rs, count_rows. rewrite list_filter_filter.
    do 2 f_equal. apply list_filter_iff. intros r. rewrite status_of_some. tauto. }
  split; [apply nodup_group_sum|]. split; [|split; [|split; [|split]]].
  - intros k n Hin.
    apply in_slices_iff in Hin; [|apply nodup_group_sum|apply pos_group_sum, Hpos].
    destruct Hin as [Hn Hk]. split; [|done].
    rewrite Htot, Hcount in Hk.
    destruct (decide (k = "Success")); [left; done|].
    destruct (decide (k = "Failure")); [right; done|].
    exfalso. unfold count_rows in Hk.
    rewrite (list_filter_iff _ (fun _ => False)) in Hk by (intros r; tauto).
    rewrite filter_none in Hk. simpl in Hk. lia.
  - rewrite Htot, Hcount. unfold count_rows. do 2 f_equal.
    apply list_filter_iff. intros r. naive_solver.
  - rewrite Htot, Hcount. unfold count_rows. do 2 f_equal.
    apply list_filter_iff. intros r. naive_solver.
  - rewrite sum_group_sum, (sum_perm _ _ Hperm), sum_group_sum, sum_status_ones; [done|].
    unfold rs. apply forall_filter, Hbin.
  - unfold count_rows. intros Hz.
    assert (rs = []) as Hnil by (apply length_zero_iff_nil; fold rs in Hz; lia).
    unfold vc. rewrite Hnil. reflexivity.
Qed.

(** ** The scatter callback, evaluated *)

Lemma px_scatter_eq df t h : px_scatter df t h = (px_scatter_result df t, h).
Proof.
  unfold px_scatter, px_scatter_result, bind, px_require, ret, raise.
  repeat case_decide; done.
Qed.

Lemma scatter_result h l ds S v :
  h !! l = Some (CFrame ds) ->
  (get_scatter_chart l S v h).1 =
  match unpack2 v with
  | Err e => Err e
  | Ok (a, b) =>
      if decide (col_payload ∈ columns ds) then
        if decide (S = "ALL") then
          px_scatter_result (mkFrame (columns ds) (payload_rows a b ds)) (scatter_title S)
        else if decide (col_site ∈ columns ds) then
          px_scatter_result
            (mkFrame (columns ds)
               (filter (fun r => bool_decide (launch_site r = S) = true) (payload_rows a b ds)))
            (scatter_title S)
        else Err (KeyError col_site)
      else Ok (Scatter "Payload Mass (kg) column missing" [])
  end.
Proof.
  intros Hl. unfold get_scatter_chart, scatter_title, payload_rows.
  unfold bind at 1, lift.
  destruct (unpack2 v) as [[a b]|e]; [|done].
  simpl. run_heap.
  destruct (decide (col_payload ∈ columns ds)) as [Hp|Hp].
  2:{ rewrite decide_True by done. done. }
  rewrite decide_False by tauto.
  destruct (is_number a && is_number b); simpl; run_heap;
    (destruct (decide (S = "ALL")); [run_heap; rewrite px_scatter_eq; done|]);
    (destruct (decide (col_site ∈ columns ds)) as [Hs|Hs];
       [run_heap; rewrite px_scatter_eq; done
       | run_heap; rewrite require_col_out by done; done]).
Qed.

Lemma px_scatter_result_ok df t f :
  px_scatter_result df t = Ok f ->
  f = Scatter t (rows df) /\ col_payload ∈ columns df /\ col_class ∈ columns df /\
  col_booster ∈ columns df.
Proof.
  unfold px_scatter_result. repeat case_decide; intros E; try discriminate.
  inversion E; subst. repeat split; done.
Qed.

Lemma px_scatter_result_wf df t :
  col_payload ∈ columns df -> col_class ∈ columns df -> col_booster ∈ columns df ->
  px_scatter_result df t = Ok (Scatter t (rows df)).
Proof. intros. unfold px_scatter_result. repeat rewrite decide_True by done. done. Qed.

Lemma in_range_true lo hi r :
  in_range lo hi r = true <-> exists p, payload_mass r = Some p /\ (lo <= p <= hi)%Q.
Proof.
  unfold in_range. destruct (payload_mass r) as [p|].
  - rewrite andb_true_iff, !Qle_bool_iff. split; [eauto|]. intros (q & [= <-] & ?). done.
  - split; [discriminate|]. intros (q & ? & _). discriminate.
Qed.

(** ** C3: the payload filter is inclusive at both ends *)

(** C3: for a numeric interval [low, high] with [low <= high], every point
    the scatter callback plots has a payload [p] with [low <= p <= high];
    and, on a dataset with the required columns, every row of the selected
    site (any row for "ALL") whose payload lies in the closed interval, in
    particular one equal to [low] or to [high], is plotted. *)
Theorem scatter_payload_in_range (h : heap) (spacex_df : loc) (ds : frame) (S : string)
    (low high : pyval) :
  h !! spacex_df = Some (CFrame ds) ->
  is_number low = true -> is_number high = true -> (num_val low <= num_val high)%Q ->
  (forall t pts,
     (get_scatter_chart spacex_df S (PyList [low; high]) h).1 = Ok (Scatter t pts) ->
     forall r, r ∈ pts ->
       exists p, payload_mass r = Some p /\ (num_val low <= p <= num_val high)%Q) /\
  (well_formed ds ->
   exists t pts,
     (get_scatter_chart spacex_df S (PyList [low; high]) h).1 = Ok (Scatter t pts) /\
     forall r p, r ∈ rows ds -> payload_mass r = Some p ->
       (num_val low <= p <= num_val high)%Q ->
       (S = "ALL" \/ launch_site r = S) -> r ∈ pts).
Proof.
  intros Hl Hlow Hhigh _.
  rewrite (scatter_result h spacex_df ds S _ Hl). simpl unpack2. cbv iota.
  unfold payload_rows. rewrite Hlow, Hhigh. simpl andb.
  split.
  - intros t pts Hres r Hr.
    destruct (decide (col_payload ∈ columns ds)).
    2:{ injection Hres as _ <-. apply elem_of_nil in Hr. done. }
    destruct (decide (S = "ALL")); [|destruct (decide (col_site ∈ columns ds)); [|discriminate]];
      apply px_scatter_result_ok in Hres as ([= _ ->] & _); simpl in Hr;
      repeat (apply list_elem_of_filter in Hr as [? Hr]); apply in_range_true; done.
  - intros (Hp & Hs & Hc & Hb).
    rewrite decide_True by done.
    destruct (decide (S = "ALL")) as [HS|HS]; [|rewrite decide_True by done];
      (eexists _, _; split; [apply px_scatter_result_wf; done|]);
      intros r p Hr Hpr Hrange Hsite; simpl.
    + apply list_elem_of_filter. split; [apply in_range_true; eauto|done].
    + apply list_elem_of_filter. split; [apply bool_decide_eq_true; naive_solver|].
      apply list_elem_of_filter. split; [apply in_range_true; eauto|done].
Qed.

(** ** C4: site restriction of the scatter *)

(** C4 (amended): for every selected site [S] other than "ALL", whenever
    the "ALL" call plots the rows [pA], the call with [S] (same interval,
    same dataset) plots exactly the rows of [pA] whose launch site is [S];
    the "ALL" call itself applies no site restriction: it plots the rows
    kept by the payload filter.  The dataset has a 'Launch Site' column,
    which building the layout at startup requires. *)
Theorem scatter_site_subset (h : heap) (spacex_df : loc) (ds : frame) (S : string)
    (v : pyval) :
  h !! spacex_df = Some (CFrame ds) -> col_site ∈ columns ds -> S <> "ALL" ->
  forall tA pA,
    (get_scatter_chart spacex_df "ALL" v h).1 = Ok (Scatter tA pA) ->
    (exists tS, (get_scatter_chart spacex_df S v h).1 =
                Ok (Scatter tS (filter (fun r => launch_site r = S) pA))) /\
    (exists a b, unpack2 v = Ok (a, b) /\
                 (col_payload ∈ columns ds -> pA = payload_rows a b ds)).
Proof.
  intros Hl Hsite HS tA pA HA.
  rewrite (scatter_result h spacex_df ds "ALL" v Hl) in HA.
  rewrite (scatter_result h spacex_df ds S v Hl).
  destruct (unpack2 v) as [[a b]|e]; [|discriminate].
  destruct (decide (col_payload ∈ columns ds)) as [Hp|Hp].
  - rewrite decide_True in HA by done.
    apply px_scatter_result_ok in HA as ([= _ ->] & _ & Hc & Hb). simpl in Hc, Hb.
    split; [|exists a, b; done].
    rewrite decide_False by done. rewrite decide_True by done.
    eexists. rewrite px_scatter_result_wf by done. simpl.
    rewrite filter_bool_decide. done.
  - injection HA as _ <-. split; [|exists a, b; split; [done|tauto]].
    eexists. done.
Qed.

(** C4 as stated fails for the selected "site" "ALL": that call is the
    "ALL" call itself, so on the example dataset it plots the two rows of
    site "A" with payload in [0, 1000], while the rows among them whose
    launch site equals "ALL" are none. *)
Lemma scatter_site_subset_counterexample :
  exists tA pA tS pS,
    (get_scatter_chart 0%nat "ALL" (PyList [PyInt 0; PyInt 1000]) example_heap).1 =
      Ok (Scatter tA pA) /\
    (get_scatter_chart 0%nat "ALL" (PyList [PyInt 0; PyInt 1000]) example_heap).1 =
      Ok (Scatter tS pS) /\
    pS <> filter (fun r => launch_site r = "ALL") pA.
Proof.
  do 4 eexists. split; [vm_compute; reflexivity|]. split; [vm_compute; reflexivity|].
  vm_compute. discriminate.
Qed.

(** ** C6: a malformed interval falls back to the unfiltered dataset *)

(** C6: when the interval argument unpacks into [low, high] but one of
    them is not an [int] or a [float], the scatter callback does not fail:
    it plots every row of the dataset (no payload filter), restricted to
    the selected site unless that is "ALL". *)
Theorem scatter_malformed_interval (h : heap) (spacex_df : loc) (ds : frame) (S : string)
    (v low high : pyval) :
  h !! spacex_df = Some (CFrame ds) -> well_formed ds ->
  unpack2 v = Ok (low, high) ->
  is_number low = false \/ is_number high = false ->
  (get_scatter_chart spacex_df S v h).1 =
    Ok (Scatter (scatter_title S)
           (if decide (S = "ALL") then rows ds
            else filter (fun r => launch_site r = S) (rows ds))).
Proof.
  intros Hl (Hp & Hs & Hc & Hb) Hv Hnum.
  rewrite (scatter_result h spacex_df ds S v Hl), Hv.
  assert (Hpr : payload_rows low high ds = rows ds).
  { unfold payload_rows. destruct Hnum as [-> | ->]; [done|]. rewrite andb_false_r. done. }
  rewrite decide_True by done. rewrite Hpr.
  destruct (decide (S = "ALL")).
  - rewrite px_scatter_result_wf by done. done.
  - rewrite decide_True by done. rewrite px_scatter_result_wf by done.
    simpl. rewrite filter_bool_decide. done.
Qed.

(** ** C7: a dataset without the payload column *)

(** C7: on a dataset lacking 'Payload Mass (kg)', for every site and every
    two-element interval, the scatter callback returns an empty chart
    titled "Payload Mass (kg) column missing", with no filtering. *)
Theorem scatter_missing_payload_column (h : heap) (spacex_df : loc) (ds : frame)
    (S : string) (v low high : pyval) :
  h !! spacex_df = Some (CFrame ds) -> col_payload ∉ columns ds ->
  unpack2 v = Ok (low, high) ->
  (get_scatter_chart spacex_df S v h).1 =
    Ok (Scatter "Payload Mass (kg) column missing" []).
Proof.
  intros Hl Hp Hv.
  rewrite (scatter_result h spacex_df ds S v Hl), Hv.
  rewrite decide_False by done. done.
Qed.

(** ** C10: the interval is unpacked before any guard *)

(** C10: the unpacking of the interval comes first.  The arguments that
    unpack into two values are the two-element lists, the two-character
    strings and the two-key dicts (JSON objects), which unpack into their
    keys.  On a dataset with the required columns every such argument
    yields a scatter chart and no exception; every other argument raises the
    unpacking error, whatever the dataset, before the column guard or the
    number guard is reached; in particular [None] raises [TypeError]. *)
Theorem scatter_unpacks_first (h : heap) (spacex_df : loc) (ds : frame) (S : string)
    (v : pyval) :
  h !! spacex_df = Some (CFrame ds) ->
  (forall low high, unpack2 v = Ok (low, high) ->
     v = PyList [low; high] \/
     (exists c1 c2, v = PyStr (String c1 (String c2 EmptyString)) /\
                    low = PyStr (String c1 EmptyString) /\ high = PyStr (String c2 EmptyString)) \/
     (exists k1 k2 x y, v = PyDict [(k1, x); (k2, y)] /\ low = PyStr k1 /\ high = PyStr k2)) /\
  (well_formed ds -> forall low high, unpack2 v = Ok (low, high) ->
     exists t pts, (get_scatter_chart spacex_df S v h).1 = Ok (Scatter t pts)) /\
  (forall e, unpack2 v = Err e -> (get_scatter_chart spacex_df S v h).1 = Err e) /\
  (get_scatter_chart spacex_df S PyNone h).1 =
    Err (TypeError "cannot unpack non-iterable object").
Proof.
  intros Hl. split; [|split; [|split]].
  - intros low high Hv. unfold unpack2 in Hv.
    repeat match type of Hv with
    | context [match ?x with _ => _ end] => destruct x; try discriminate Hv
    end; injection Hv as <- <-;
    first [ left; reflexivity
          | right; left; do 2 eexists; split; [reflexivity|]; split; reflexivity
          | right; right; do 4 eexists; split; [reflexivity|]; split; reflexivity ].
  - intros (Hp & Hs & Hc & Hb) low high Hv.
    rewrite (scatter_result h spacex_df ds S v Hl), Hv.
    rewrite decide_True by done.
    destruct (decide (S = "ALL")); [|rewrite decide_True by done];
      (eexists _, _; apply px_scatter_result_wf; done).
  - intros e Hv. rewrite (scatter_result h spacex_df ds S v Hl), Hv. done.
  - rewrite (scatter_result h spacex_df ds S PyNone Hl). done.
Qed.

(** ** Series.min and Series.max *)

Section MinMax.

Lemma qle_bool_cases a x :
  (Qle_bool a x = true /\ (a <= x)%Q) \/ (Qle_bool a x = false /\ (x <= a)%Q).
Proof.
  destruct (Qle_bool a x) eqn:E.
  - left. split; [done|]. apply Qle_bool_iff. done.
  - right. split; [done|]. apply Qlt_le_weak, Qnot_le_lt.
    intros H. apply Qle_bool_iff in H. congruence.
Qed.

Lemma min_step_none acc o : min_step acc o = None <-> acc = None /\ o = None.
Proof. destruct o, acc; simpl; naive_solver. Qed.

Lemma max_step_none acc o : max_step acc o = None <-> acc = None /\ o = None.
Proof. destruct o, acc; simpl; naive_solver. Qed.

Lemma min_step_some acc o b :
  min_step acc o = Some b ->
  (acc = Some b \/ o = Some b) /\
  (forall a, acc = Some a -> (b <= a)%Q) /\ (forall x, o = Some x -> (b <= x)%Q).
Proof.
  destruct o as [x|], acc as [a|]; simpl; intros E; try injection E as <-.
  - destruct (qle_bool_cases a x) as [[-> ?]|[-> ?]];
      (split; [naive_solver|split]; intros ? [= <-]; try apply Qle_refl; done).
  - split; [naive_solver|split]; intros ? E; [discriminate|injection E as <-; apply Qle_refl].
  - subst. split; [naive_solver|split]; intros ? E; [injection E as <-; apply Qle_refl|discriminate].
  - discriminate.
Qed.

Lemma max_step_some acc o b :
  max_step acc o = Some b ->
  (acc = Some b \/ o = Some b) /\
  (forall a, acc = Some a -> (a <= b)%Q) /\ (forall x, o = Some x -> (x <= b)%Q).
Proof.
  destruct o as [x|], acc as [a|]; simpl; intros E; try injection E as <-.
  - destruct (qle_bool_cases a x) as [[-> ?]|[-> ?]];
      (split; [naive_solver|split]; intros ? [= <-]; try apply Qle_refl; done).
  - split; [naive_solver|split]; intros ? E; [discriminate|injection E as <-; apply Qle_refl].
  - subst. split; [naive_solver|split]; intros ? E; [injection E as <-; apply Qle_refl|discriminate].
  - discriminate.
Qed.

Lemma min_fold_none l acc :
  fold_left min_step l acc = None <-> acc = None /\ forall x, Some x ∉ l.
Proof.
  revert acc. induction l as [|o l IH]; intros acc; simpl.
  - split; [intros ->; split; [done|]; intros x Hx; apply elem_of_nil in Hx; done|tauto].
  - rewrite IH, min_step_none. setoid_rewrite elem_of_cons. split.
    + intros [[-> ->] H]. split; [done|]. intros x [E|Hx]; [discriminate|]. apply (H x Hx).
    + intros [-> H]. destruct o as [x|].
      * exfalso. apply (H x). left. done.
      * split; [done|]. intros x Hx. apply (H x). right. done.
Qed.

Lemma max_fold_none l acc :
  fold_left max_step l acc = None <-> acc = None /\ forall x, Some x ∉ l.
Proof.
  revert acc. induction l as [|o l IH]; intros acc; simpl.
  - split; [intros ->; split; [done|]; intros x Hx; apply elem_of_nil in Hx; done|tauto].
  - rewrite IH, max_step_none. setoid_rewrite elem_of_cons. split.
    + intros [[-> ->] H]. split; [done|]. intros x [E|Hx]; [discriminate|]. apply (H x Hx).
    + intros [-> H]. destruct o as [x|].
      * exfalso. apply (H x). left. done.
      * split; [done|]. intros x Hx. apply (H x). right. done.
Qed.

Lemma min_fold_some l acc m :
  fold_left min_step l acc = Some m ->
  (acc = Some m \/ Some m ∈ l) /\ (forall x, Some x ∈ l -> (m <= x)%Q) /\
  (forall a, acc = Some a -> (m <= a)%Q).
Proof.
  revert acc. induction l as [|o l IH]; intros acc; simpl.
  - intros ->. split; [left; done|]. split; [intros x Hx; apply elem_of_nil in Hx; done|].
    intros a [= ->]. apply Qle_refl.
  - intros Hf. destruct (IH _ Hf) as (Hat & Hlow & Hacc).
    split; [|split].
    + destruct Hat as [Hb|Hin]; [|right; right; done].
      destruct (min_step_some _ _ _ Hb) as ([-> | ->] & _ & _); [left; done|right; left].
    + intros x Hx. apply elem_of_cons in Hx as [<-|Hx]; [|auto].
      destruct (min_step acc (Some x)) as [b|] eqn:Hb.
      * eapply Qle_trans; [exact (Hacc b eq_refl)|]. apply (min_step_some _ _ _ Hb) with (x := x). done.
      * apply min_step_none in Hb as [_ Hb]. discriminate.
    + intros a Ha. destruct (min_step acc o) as [b|] eqn:Hb.
      * eapply Qle_trans; [exact (Hacc b eq_refl)|]. apply (min_step_some _ _ _ Hb) with (a := a). done.
      * apply min_step_none in Hb as [Hb _]. congruence.
Qed.

Lemma max_fold_some l acc m :
  fold_left max_step l acc = Some m ->
  (acc = Some m \/ Some m ∈ l) /\ (forall x, Some x ∈ l -> (x <= m)%Q) /\
  (forall a, acc = Some a -> (a <= m)%Q).
Proof.
  revert acc. induction l as [|o l IH]; intros acc; simpl.
  - intros ->. split; [left; done|]. split; [intros x Hx; apply elem_of_nil in Hx; done|].
    intros a [= ->]. apply Qle_refl.
  - intros Hf. destruct (IH _ Hf) as (Hat & Hup & Hacc).
    split; [|split].
    + destruct Hat as [Hb|Hin]; [|right; right; done].
      destruct (max_step_some _ _ _ Hb) as ([-> | ->] & _ & _); [left; done|right; left].
    + intros x Hx. apply elem_of_cons in Hx as [<-|Hx]; [|auto].
      destruct (max_step acc (Some x)) as [b|] eqn:Hb.
      * eapply Qle_trans; [|exact (Hacc b eq_refl)]. apply (max_step_some _ _ _ Hb) with (x := x). done.
      * apply max_step_none in Hb as [_ Hb]. discriminate.
    + intros a Ha. destruct (max_step acc o) as [b|] eqn:Hb.
      * eapply Qle_trans; [|exact (Hacc b eq_refl)]. apply (max_step_some _ _ _ Hb) with (a := a). done.
      * apply max_step_none in Hb as [Hb _]. congruence.
Qed.

End MinMax.

(** ** Series.unique *)

Lemma unique_aux_elem seen l x : (x ∈ unique_aux seen l) <-> ((x ∉ seen) /\ (x ∈ l)).
Proof.
  revert seen. induction l as [|y l IH]; intros seen; simpl.
  - rewrite !elem_of_nil. tauto.
  - destruct (decide (y ∈ seen)) as [Hy|Hy].
    + rewrite IH, elem_of_cons. split.
      * intros [H1 H2]. split; [done|right; done].
      * intros [H1 [->|H2]]; [contradiction|done].
    + rewrite elem_of_cons, IH, elem_of_cons, elem_of_cons. split.
      * intros [->|[Hn Hl]]; [split; [done|left; done]|split; [tauto|right; done]].
      * intros [Hs [->|Hl]]; [left; done|].
        destruct (decide (x = y)); [left; done|right; split; [tauto|done]].
Qed.

Lemma unique_aux_nodup seen l : NoDup (unique_aux seen l).
Proof.
  revert seen. induction l as [|y l IH]; intros seen; simpl; [constructor|].
  destruct (decide (y ∈ seen)); [done|].
  apply NoDup_cons. split; [|done].
  rewrite unique_aux_elem, elem_of_cons. tauto.
Qed.

Lemma unique_aux_snoc seen l x :
  unique_aux seen (l ++ [x]) =
  if decide (x ∈ seen \/ x ∈ l) then unique_aux seen l else unique_aux seen l ++ [x].
Proof.
  revert seen. induction l as [|y l IH]; intros seen; simpl.
  - destruct (decide (x ∈ seen)), (decide (x ∈ seen \/ x ∈ [])) as [H|H];
      rewrite ?elem_of_nil in H; try done; tauto.
  - destruct (decide (y ∈ seen)) as [Hy|Hy]; rewrite IH.
    + destruct (decide (x ∈ seen \/ x ∈ l)) as [H1|H1],
               (decide (x ∈ seen \/ x ∈ y :: l)) as [H2|H2];
        rewrite ?elem_of_cons in H2; try done; exfalso; naive_solver.
    + destruct (decide (x ∈ y :: seen \/ x ∈ l)) as [H1|H1],
               (decide (x ∈ seen \/ x ∈ y :: l)) as [H2|H2];
        rewrite ?elem_of_cons in H1, H2; try done; exfalso; naive_solver.
Qed.

Lemma unique_snoc l x :
  unique (l ++ [x]) = if decide (x ∈ l) then unique l else unique l ++ [x].
Proof.
  unfold unique. rewrite unique_aux_snoc.
  destruct (decide (x ∈ [] \/ x ∈ l)) as [H|H], (decide (x ∈ l)); try done;
    rewrite elem_of_nil in H; tauto.
Qed.

(** ** C5: the loader on a missing file *)

(** C5: when the CSV file is not found, loading does not raise: it prints
    one diagnostic line and binds [spacex_df] to a one-row frame with
    exactly the columns 'Payload Mass (kg)', 'Launch Site', 'class' and
    'Booster Version Category', whose row has payload 0, site "Default",
    class 0 and booster category "Default". *)
Theorem load_missing_csv :
  exists df,
    load_spacex_df ReadFileNotFound = ([not_found_message], Ok df) /\
    columns df = [col_payload; col_site; col_class; col_booster] /\
    rows df = [mkRow (Some 0%Q) "Default" 0 "Default"].
Proof. exists placeholder_df. split; [reflexivity|]. split; reflexivity. Qed.

(** ** C8: the layout built at startup *)

(** C8: when the layout is built, the site selector's option values are
    "ALL" followed by the distinct launch sites in order of first
    appearance ([unique] has no duplicates, lists exactly the sites, and
    adding a row appends its site only when it is new), with "ALL"
    selected; the payload slider ranges over 0..10000 with step 1000 and a
    mark labelled [str i] at every multiple [i] of 1000 from 0 to 10000,
    whatever the dataset; its initial value is the dataset's minimum and
    maximum payload, each replaced by 0 and 10000 when it is NaN, which
    happens exactly when no payload is defined. *)
Theorem layout_at_startup (ds : frame) (L : layout) :
  build_layout ds = Ok L ->
  map snd (dd_options (site_dropdown L)) = "ALL" :: unique (map launch_site (rows ds)) /\
  NoDup (unique (map launch_site (rows ds))) /\
  (forall s, s ∈ unique (map launch_site (rows ds)) <-> s ∈ map launch_site (rows ds)) /\
  (forall l x, unique (l ++ [x]) = if decide (x ∈ l) then unique l else unique l ++ [x]) /\
  dd_value (site_dropdown L) = "ALL" /\
  rs_min (payload_slider L) = 0 /\ rs_max (payload_slider L) = 10000 /\
  rs_step (payload_slider L) = 1000 /\
  map fst (rs_marks (payload_slider L)) =
    [0; 1000; 2000; 3000; 4000; 5000; 6000; 7000; 8000; 9000; 10000] /\
  (forall i s, (i, s) ∈ rs_marks (payload_slider L) -> s = pretty i) /\
  rs_value (payload_slider L) =
    (notna_or (pd_min (map payload_mass (rows ds))) 0%Q,
     notna_or (pd_max (map payload_mass (rows ds))) 10000%Q) /\
  (forall m, pd_min (map payload_mass (rows ds)) = Some m ->
     Some m ∈ map payload_mass (rows ds) /\
     forall x, Some x ∈ map payload_mass (rows ds) -> (m <= x)%Q) /\
  (forall m, pd_max (map payload_mass (rows ds)) = Some m ->
     Some m ∈ map payload_mass (rows ds) /\
     forall x, Some x ∈ map payload_mass (rows ds) -> (x <= m)%Q) /\
  (pd_min (map payload_mass (rows ds)) = None <->
     forall x, Some x ∉ map payload_mass (rows ds)) /\
  (pd_max (map payload_mass (rows ds)) = None <->
     forall x, Some x ∉ map payload_mass (rows ds)).
Proof.
  unfold build_layout. intros H.
  destruct (decide (col_payload ∉ columns ds)); [discriminate|].
  destruct (decide (col_site ∉ columns ds)); [discriminate|].
  injection H as <-. simpl.
  split; [rewrite map_map; simpl; rewrite map_id; done|].
  split; [apply unique_aux_nodup|].
  split; [intros s; unfold unique; rewrite unique_aux_elem, elem_of_nil; tauto|].
  split; [apply unique_snoc|].
  do 5 (split; [done|]).
  split.
  { intros i s Hin. apply list_elem_of_In in Hin. simpl in Hin.
    repeat destruct Hin as [Hin|Hin]; try (injection Hin as <- <-; reflexivity). done. }
  split; [done|].
  split; [|split; [|split]].
  - intros m Hm. destruct (min_fold_some _ _ _ Hm) as ([?|?] & Hlow & _); [discriminate|].
    split; done.
  - intros m Hm. destruct (max_fold_some _ _ _ Hm) as ([?|?] & Hup & _); [discriminate|].
    split; done.
  - unfold pd_min. rewrite min_fold_none. tauto.
  - unfold pd_max. rewrite max_fold_none. tauto.
Qed.

(** ** C9: the callbacks do not mutate the dataset *)

Section Keeps.

Variable n : nat.

Lemma keeps_bind {A B} (m : M A) (k : A -> M B) :
  keeps n m -> (forall a, keeps n (k a)) -> keeps n (bind m k).
Proof.
  intros Hm Hk h Hh. unfold bind.
  destruct (Hm h Hh) as [Hlen Hi].
  destruct (m h) as [[a|e] h'] eqn:E; simpl in *.
  - destruct (Hk a h' Hlen) as [Hlen' Hi']. split; [done|].
    intros i Hlt. rewrite Hi', Hi; done.
  - split; done.
Qed.

Lemma keeps_alloc_bind {A} (c : cell) (k : loc -> M A) :
  (forall l, (n <= l)%nat -> keeps n (k l)) -> keeps n (bind (alloc c) k).
Proof.
  intros Hk h Hh. rewrite alloc_bind.
  assert (Hlen : (n <= length (h ++ [c]))%nat) by (rewrite length_app; simpl; lia).
  destruct (Hk (length h) Hh (h ++ [c]) Hlen) as [Hlen' Hi]. split; [done|].
  intros i Hlt. rewrite Hi by done. apply lookup_app_l. lia.
Qed.

Lemma keeps_unchanged {A} (m : M A) : (forall h, (m h).2 = h) -> keeps n m.
Proof. intros Hm h Hh. rewrite Hm. done. Qed.

Lemma keeps_ret {A} (a : A) : keeps n (ret a).
Proof. apply keeps_unchanged. done. Qed.

Lemma keeps_raise {A} (e : exn) : keeps n (@raise A e).
Proof. apply keeps_unchanged. done. Qed.

Lemma keeps_lift {A} (r : result A) : keeps n (lift r).
Proof. apply keeps_unchanged. done. Qed.

Lemma keeps_load_frame l : keeps n (load_frame l).
Proof. apply keeps_unchanged. intros h. unfold load_frame. destruct (h !! l) as [[]|]; done. Qed.

Lemma keeps_load_counts l : keeps n (load_counts l).
Proof. apply keeps_unchanged. intros h. unfold load_counts. destruct (h !! l) as [[]|]; done. Qed.

Lemma keeps_require_col name cs : keeps n (require_col name cs).
Proof. unfold require_col. case_decide; [apply keeps_ret|apply keeps_raise]. Qed.

Lemma keeps_px_require arg name cs : keeps n (px_require arg name cs).
Proof. unfold px_require. case_decide; [apply keeps_ret|apply keeps_raise]. Qed.

Lemma keeps_store l c : (n <= l)%nat -> keeps n (store l c).
Proof.
  intros Hl h Hh. unfold store. cbn [snd]. rewrite length_insert. split; [done|].
  intros i Hi. apply list_lookup_insert_ne. lia.
Qed.

End Keeps.

Ltac keeps_step :=
  first
    [ apply keeps_alloc_bind; intros ?l ?Hl
    | apply keeps_bind; [first [ apply keeps_load_frame | apply keeps_load_counts
                               | apply keeps_require_col | apply keeps_px_require
                               | apply keeps_lift
                               | apply keeps_ret | apply keeps_raise
                               | (apply keeps_store; lia) ] | intros ?]
    | apply keeps_ret
    | apply keeps_raise
    | match goal with |- context [if ?b then _ else _] => destruct b end ].

Lemma keeps_get_pie_chart n l S : keeps n (get_pie_chart l S).
Proof.
  unfold get_pie_chart, px_pie_names, px_pie_values. cbv zeta.
  repeat keeps_step.
Qed.

Lemma keeps_get_scatter_chart n l S v : keeps n (get_scatter_chart l S v).
Proof.
  unfold get_scatter_chart, px_scatter. repeat keeps_step.
Qed.

(** C9: neither callback mutates the dataset: whatever the selected site
    and interval, after the pie callback or the scatter callback the shared
    frame [spacex_df] is the same object with the same columns and rows, and
    so is every other object that existed before the call; the callbacks
    only allocate new frames (the filtered copies and the count table). *)
Theorem callbacks_keep_dataset (h : heap) (spacex_df : loc) (ds : frame) (S : string)
    (v : pyval) :
  h !! spacex_df = Some (CFrame ds) ->
  (get_pie_chart spacex_df S h).2 !! spacex_df = Some (CFrame ds) /\
  (get_scatter_chart spacex_df S v h).2 !! spacex_df = Some (CFrame ds) /\
  (forall i, (i < length h)%nat ->
     (get_pie_chart spacex_df S h).2 !! i = h !! i /\
     (get_scatter_chart spacex_df S v h).2 !! i = h !! i).
Proof.
  intros Hl.
  destruct (keeps_get_pie_chart (length h) spacex_df S h (le_n _)) as [_ Hp].
  destruct (keeps_get_scatter_chart (length h) spacex_df S v h (le_n _)) as [_ Hs].
  assert (Hlt : (spacex_df < length h)%nat) by (eapply lookup_lt_Some; exact Hl).
  split; [rewrite Hp; done|]. split; [rewrite Hs; done|].
  intros i Hi. split; [apply Hp|apply Hs]; done.
Qed.

(** ** Witnesses *)

Ltac col_in := apply (bool_decide_unpack _); vm_compute; reflexivity.

Ltac side := first [ reflexivity | done | col_in
                   | (unfold binary_classes; simpl; repeat constructor; simpl; lia)
                   | (split; [|split; [|split]]; col_in) ].

Lemma pie_one_site_witness :
  exists slices,
    (get_pie_chart 0%nat "A" example_heap).1 =
      Ok (Pie ("Successful vs. Failed Launches for site " +:+ "A") slices) /\
    NoDup (map fst slices) /\
    (forall k n, (k, n) ∈ slices -> (k = "Success" \/ k = "Failure") /\ 0 < n) /\
    total "Success" slices = count_rows (fun r => launch_site r = "A" /\ cls r = 1) example_df /\
    total "Failure" slices = count_rows (fun r => launch_site r = "A" /\ cls r = 0) example_df /\
    sum_values slices = count_rows (fun r => launch_site r = "A") example_df /\
    (count_rows (fun r => launch_site r = "A") example_df = 0 -> slices = []).
Proof. apply (pie_one_site example_heap 0%nat example_df "A"); side. Defined.

Lemma scatter_payload_in_range_witness :
  (forall t pts,
     (get_scatter_chart 0%nat "ALL" (PyList [PyInt 0; PyInt 500]) example_heap).1 =
       Ok (Scatter t pts) ->
     forall r, r ∈ pts ->
       exists p, payload_mass r = Some p /\ (num_val (PyInt 0) <= p <= num_val (PyInt 500))%Q) /\
  (well_formed example_df ->
   exists t pts,
     (get_scatter_chart 0%nat "ALL" (PyList [PyInt 0; PyInt 500]) example_heap).1 =
       Ok (Scatter t pts) /\
     forall r p, r ∈ rows example_df -> payload_mass r = Some p ->
       (num_val (PyInt 0) <= p <= num_val (PyInt 500))%Q ->
       ("ALL" = "ALL" \/ launch_site r = "ALL") -> r ∈ pts).
Proof.
  apply (scatter_payload_in_range example_heap 0%nat example_df "ALL" (PyInt 0) (PyInt 500));
    [reflexivity | reflexivity | reflexivity | vm_compute; discriminate].
Defined.

Lemma scatter_site_subset_witness :
  (get_scatter_chart 0%nat "ALL" (PyList [PyInt 0; PyInt 1000]) example_heap).1 =
    Ok (Scatter "Payload vs. Launch Outcome for All Sites" example_light_rows) /\
  (exists tS, (get_scatter_chart 0%nat "A" (PyList [PyInt 0; PyInt 1000]) example_heap).1 =
              Ok (Scatter tS (filter (fun r => launch_site r = "A") example_light_rows))) /\
  (exists a b, unpack2 (PyList [PyInt 0; PyInt 1000]) = Ok (a, b) /\
               (col_payload ∈ columns example_df -> example_light_rows = payload_rows a b example_df)).
Proof.
  assert (HA : (get_scatter_chart 0%nat "ALL" (PyList [PyInt 0; PyInt 1000]) example_heap).1 =
    Ok (Scatter "Payload vs. Launch Outcome for All Sites" example_light_rows))
    by (vm_compute; reflexivity).
  split; [exact HA|].
  refine (scatter_site_subset example_heap 0%nat example_df "A" (PyList [PyInt 0; PyInt 1000])
            eq_refl _ _ _ _ HA); [apply (bool_decide_unpack _); vm_compute; reflexivity | done].
Defined.

Lemma scatter_malformed_interval_witness :
  (get_scatter_chart 0%nat "B" (PyList [PyNone; PyInt 1000]) example_heap).1 =
    Ok (Scatter (scatter_title "B")
           (if decide ("B" = "ALL") then rows example_df
            else filter (fun r => launch_site r = "B") (rows example_df))).
Proof.
  apply (scatter_malformed_interval example_heap 0%nat example_df "B"
           (PyList [PyNone; PyInt 1000]) PyNone (PyInt 1000));
    [reflexivity | side | reflexivity | left; reflexivity].
Defined.

Lemma scatter_missing_payload_column_witness :
  (get_scatter_chart 0%nat "A" (PyList [PyStr "x"; PyInt 1000]) no_payload_heap).1 =
    Ok (Scatter "Payload Mass (kg) column missing" []).
Proof.
  apply (scatter_missing_payload_column no_payload_heap 0%nat no_payload_df "A"
           (PyList [PyStr "x"; PyInt 1000]) (PyStr "x") (PyInt 1000));
    [reflexivity | vm_compute; intros H; inversion H as [|? ? ? Hn]; subst;
                   inversion Hn as [|? ? ? Hn']; subst; inversion Hn' as [|? ? ? Hn'']; subst;
                   inversion Hn'' | reflexivity].
Defined.

Lemma scatter_unpacks_first_witness :
  (forall low high, unpack2 (PyStr "ab") = Ok (low, high) ->
     PyStr "ab" = PyList [low; high] \/
     (exists c1 c2, PyStr "ab" = PyStr (String c1 (String c2 EmptyString)) /\
                    low = PyStr (String c1 EmptyString) /\ high = PyStr (String c2 EmptyString)) \/
     (exists k1 k2 x y, PyStr "ab" = PyDict [(k1, x); (k2, y)] /\ low = PyStr k1 /\ high = PyStr k2)) /\
  (well_formed example_df -> forall low high, unpack2 (PyStr "ab") = Ok (low, high) ->
     exists t pts, (get_scatter_chart 0%nat "A" (PyStr "ab") example_heap).1 = Ok (Scatter t pts)) /\
  (forall e, unpack2 (PyStr "ab") = Err e ->
     (get_scatter_chart 0%nat "A" (PyStr "ab") example_heap).1 = Err e) /\
  (get_scatter_chart 0%nat "A" PyNone example_heap).1 =
    Err (TypeError "cannot unpack non-iterable object").
Proof. apply (scatter_unpacks_first example_heap 0%nat example_df "A" (PyStr "ab")). reflexivity. Defined.

(** Counterexample to C10 as stated: a dict with two keys is not a
    sequence, yet it unpacks (into its keys "a" and "b", which are not
    numbers) and reaches the fallback, which plots every row of the site
    whatever its payload. *)
Lemma scatter_unpacks_first_counterexample :
  is_sequence (PyDict [("a", PyInt 0); ("b", PyInt 1)]) = false /\
  (get_scatter_chart 0%nat "A" (PyDict [("a", PyInt 0); ("b", PyInt 1)]) example_heap).1 =
    Ok (Scatter (scatter_title "A") (filter (fun r => launch_site r = "A") (rows example_df))) /\
  filter (fun r => launch_site r = "A") (rows example_df) <> [].
Proof. split; [reflexivity|]. split; [vm_compute; reflexivity|]. vm_compute. discriminate. Defined.

Lemma callbacks_keep_dataset_witness :
  (get_pie_chart 0%nat "A" example_heap).2 !! 0%nat = Some (CFrame example_df) /\
  (get_scatter_chart 0%nat "A" (PyList [PyInt 0; PyInt 1000]) example_heap).2 !! 0%nat =
    Some (CFrame example_df) /\
  (forall i, (i < length example_heap)%nat ->
     (get_pie_chart 0%nat "A" example_heap).2 !! i = example_heap !! i /\
     (get_scatter_chart 0%nat "A" (PyList [PyInt 0; PyInt 1000]) example_heap).2 !! i =
       example_heap !! i).
Proof.
  apply (callbacks_keep_dataset example_heap 0%nat example_df "A" (PyList [PyInt 0; PyInt 1000])).
  reflexivity.
Defined.

Lemma layout_at_startup_witness :
  exists L, build_layout example_df = Ok L /\
    map snd (dd_options (site_dropdown L)) = ["ALL"; "A"; "B"] /\
    rs_value (payload_slider L) = (500%Q, 9000%Q).
Proof.
  assert (HL : build_layout example_df = Ok (match build_layout example_df with
                                                 | Ok L => L
                                                 | Err _ => mkLayout (mkDropdown [] "") (mkRangeSlider 0 0 0 [] (0%Q, 0%Q))
                                                 end)) by reflexivity.
  eexists. split; [exact HL|].
  destruct (layout_at_startup example_df _ HL) as (Hopts & _ & _ & _ & _ & _ & _ & _ & _ & _ & Hval & _).
  rewrite Hopts, Hval. split; reflexivity.
Defined.

(** * Further properties of the callbacks and of startup *)

(** ** The pie callback, evaluated *)

Lemma pie_all_eval h l ds :
  h !! l = Some (CFrame ds) ->
  (get_pie_chart l "ALL" h).1 =
    if decide (col_class ∈ columns ds) then
      if decide (col_site ∈ columns ds) then
        Ok (Pie "Total Successful Launches by Site"
              (group_sum (map (fun r => (launch_site r, 1))
                              (filter (fun r => cls r = 1) (rows ds)))))
      else Err (px_col_error "names" col_site)
    else Err (KeyError col_class).
Proof.
  intros Hl. unfold get_pie_chart. rewrite decide_True by done.
  erewrite load_frame_at by done.
  destruct (decide (col_class ∈ columns ds)) as [Hc|Hc];
    [|rewrite require_col_out by done; done].
  run_heap. unfold px_pie_names. simpl.
  destruct (decide (col_site ∈ columns ds)) as [Hs|Hs].
  - run_heap. simpl. rewrite filter_bool_decide. done.
  - rewrite px_require_out by done. done.
Qed.

Lemma pie_site_eval h l ds S :
  h !! l = Some (CFrame ds) -> S <> "ALL" ->
  (get_pie_chart l S h).1 =
    if decide (col_site ∈ columns ds) then
      if decide (col_class ∈ columns ds) then
        Ok (Pie ("Successful vs. Failed Launches for site " +:+ S)
              (group_sum (value_counts (map (fun r => status_of (cls r))
                                            (filter (fun r => launch_site r = S) (rows ds))))))
      else Err (KeyError col_class)
    else Err (KeyError col_site).
Proof.
  intros Hl HS. unfold get_pie_chart. rewrite decide_False by done.
  erewrite load_frame_at by done.
  destruct (decide (col_site ∈ columns ds)) as [Hs|Hs];
    [|rewrite require_col_out by done; done].
  run_heap. simpl.
  destruct (decide (col_class ∈ columns ds)) as [Hc|Hc];
    [|rewrite require_col_out by done; done].
  run_heap. simpl. run_heap. unfold px_pie_values. run_heap. simpl.
  rewrite filter_bool_decide. done.
Qed.

(** ** Grouping a list with distinct labels *)

Lemma group_sum_snoc l kv : group_sum (l ++ [kv]) = bump kv.1 kv.2 (group_sum l).
Proof. unfold group_sum. rewrite fold_left_app. done. Qed.

(** On a list whose labels are already distinct, grouping changes nothing. *)
Lemma group_sum_nodup t : NoDup (map fst t) -> group_sum t = t.
Proof.
  induction t as [|kv t IH] using rev_ind; [done|].
  rewrite map_app. intros Hnd.
  apply NoDup_app in Hnd as (Hnd & Hdisj & _).
  rewrite group_sum_snoc, IH by done.
  assert (Hn : kv.1 ∉ map fst t) by (intros Hin; apply (Hdisj _ Hin); apply list_elem_of_singleton; done).
  clear IH Hdisj Hnd. induction t as [|[k0 m] t IHt]; simpl.
  - destruct kv. done.
  - simpl in Hn. rewrite elem_of_cons in Hn.
    rewrite decide_False by (intros E; apply Hn; left; done).
    rewrite IHt; [done|]. intros H; apply Hn; right; done.
Qed.

Lemma sum_status_ones_all (l : list row) :
  sum_values (status_ones l) = Z.of_nat (length (filter (fun r => cls r = 0 \/ cls r = 1) l)).
Proof.
  induction l as [|r l IH]; [done|].
  rewrite status_ones_cons, filter_cons. unfold status_of.
  destruct (decide (cls r = 1)); [|destruct (decide (cls r = 0))];
    (destruct (decide (cls r = 0 \/ cls r = 1)); [|try tauto]); simpl; try tauto; lia.
Qed.

Lemma filter_sublist_mono {X} (P Q : X -> Prop) `{forall x, Decision (P x)}
    `{forall x, Decision (Q x)} (l : list X) :
  (forall x, P x -> Q x) -> filter P l `sublist_of` filter Q l.
Proof.
  intros HPQ. induction l as [|x l IH]; [done|]. rewrite !filter_cons.
  destruct (decide (P x)) as [HP|HP]; destruct (decide (Q x)) as [HQ|HQ].
  - apply sublist_skip. done.
  - exfalso. auto.
  - apply sublist_cons. done.
  - done.
Qed.

Lemma success_rows_eq S (l : list row) :
  filter (fun r => status_of (cls r) = Some "Success") (filter (fun r => launch_site r = S) l) =
  filter (fun r => launch_site r = S) (filter (fun r => cls r = 1) l).
Proof.
  rewrite !list_filter_filter. apply list_filter_iff. intros r.
  rewrite status_of_some. split.
  - intros [[[_ Hc]|[E _]] Hs]; [tauto|discriminate].
  - intros [Hs Hc]. split; [left; done|done].
Qed.

(** ** The pie callback *)

(** The "ALL" pie reads only the column names and the successful rows: two
    datasets with the same columns and the same successful rows, in the same
    order, give the same result (failed rows and rows of other classes play
    no part, also when a column is missing). *)
Theorem pie_all_same_successes (h1 h2 : heap) (l1 l2 : loc) (ds1 ds2 : frame) :
  h1 !! l1 = Some (CFrame ds1) -> h2 !! l2 = Some (CFrame ds2) ->
  columns ds1 = columns ds2 ->
  filter (fun r => cls r = 1) (rows ds1) = filter (fun r => cls r = 1) (rows ds2) ->
  (get_pie_chart l1 "ALL" h1).1 = (get_pie_chart l2 "ALL" h2).1.
Proof.
  intros H1 H2 Hc Hf.
  rewrite (pie_all_eval _ _ _ H1), (pie_all_eval _ _ _ H2), Hc, Hf. reflexivity.
Qed.

Lemma pie_all_same_successes_witness :
  (get_pie_chart 0%nat "ALL" example_heap).1 = (get_pie_chart 0%nat "ALL" example_more_heap).1.
Proof.
  apply (pie_all_same_successes example_heap example_more_heap 0%nat 0%nat
           example_df example_more_df); vm_compute; reflexivity.
Defined.

(** The slices of a site pie come in nonincreasing order of their counts
    (the order of [value_counts] survives the pie's grouping). *)
Theorem pie_site_sorted (h : heap) (l : loc) (ds : frame) (S : string) :
  h !! l = Some (CFrame ds) -> col_site ∈ columns ds -> col_class ∈ columns ds ->
  S <> "ALL" ->
  exists slices,
    (get_pie_chart l S h).1 =
      Ok (Pie ("Successful vs. Failed Launches for site " +:+ S) slices) /\
    StronglySorted count_ge slices.
Proof.
  intros Hl Hs Hc HS. rewrite (pie_site_eval _ _ _ _ Hl HS), !decide_True by done.
  eexists. split; [reflexivity|].
  set (rs := filter (fun r => launch_site r = S) (rows ds)).
  assert (Hnd : NoDup (map fst (value_counts (map (fun r => status_of (cls r)) rs)))).
  { rewrite (Permutation_map fst (value_counts_perm rs)). apply nodup_group_sum. }
  rewrite group_sum_nodup by exact Hnd. unfold value_counts.
  apply StronglySorted_merge_sort; apply _.
Qed.

Lemma pie_site_sorted_witness :
  exists slices,
    (get_pie_chart 0%nat "A" example_more_heap).1 =
      Ok (Pie ("Successful vs. Failed Launches for site " +:+ "A") slices) /\
    StronglySorted count_ge slices.
Proof.
  apply (pie_site_sorted example_more_heap 0%nat example_more_df "A");
    [reflexivity | col_in | col_in | discriminate].
Defined.

(** A site pie counts exactly the rows of that site whose class is 0 or 1:
    rows with any other class value are left out of every slice. *)
Theorem pie_site_counts_binary_rows (h : heap) (l : loc) (ds : frame) (S : string) :
  h !! l = Some (CFrame ds) -> col_site ∈ columns ds -> col_class ∈ columns ds ->
  S <> "ALL" ->
  exists slices,
    (get_pie_chart l S h).1 =
      Ok (Pie ("Successful vs. Failed Launches for site " +:+ S) slices) /\
    sum_values slices = count_rows (fun r => launch_site r = S /\ (cls r = 0 \/ cls r = 1)) ds.
Proof.
  intros Hl Hs Hc HS. rewrite (pie_site_eval _ _ _ _ Hl HS), !decide_True by done.
  eexists. split; [reflexivity|].
  rewrite sum_group_sum, (sum_perm _ _ (value_counts_perm _)), sum_group_sum,
    sum_status_ones_all.
  unfold count_rows. rewrite list_filter_filter. do 2 f_equal.
  apply list_filter_iff. intros r. tauto.
Qed.

Lemma pie_site_counts_binary_rows_witness :
  exists slices,
    (get_pie_chart 0%nat "A" example_more_heap).1 =
      Ok (Pie ("Successful vs. Failed Launches for site " +:+ "A") slices) /\
    sum_values slices =
      count_rows (fun r => launch_site r = "A" /\ (cls r = 0 \/ cls r = 1)) example_more_df.
Proof.
  apply (pie_site_counts_binary_rows example_more_heap 0%nat example_more_df "A");
    [reflexivity | col_in | col_in | discriminate].
Defined.

(** The two pies agree: the "Success" slice of the pie of a site carries
    the same count as that site's slice in the "ALL" pie. *)
Theorem pie_success_matches_all (h : heap) (l : loc) (ds : frame) (S : string) :
  h !! l = Some (CFrame ds) -> col_site ∈ columns ds -> col_class ∈ columns ds ->
  S <> "ALL" ->
  exists sA sS,
    (get_pie_chart l "ALL" h).1 = Ok (Pie "Total Successful Launches by Site" sA) /\
    (get_pie_chart l S h).1 =
      Ok (Pie ("Successful vs. Failed Launches for site " +:+ S) sS) /\
    total "Success" sS = total S sA.
Proof.
  intros Hl Hs Hc HS.
  rewrite (pie_all_eval _ _ _ Hl), (pie_site_eval _ _ _ _ Hl HS), !decide_True by done.
  do 2 eexists. split; [reflexivity|]. split; [reflexivity|].
  rewrite !total_group_sum, (total_perm _ _ _ (value_counts_perm _)), total_group_sum,
    total_status_ones, total_ones, success_rows_eq.
  reflexivity.
Qed.

Lemma pie_success_matches_all_witness :
  exists sA sS,
    (get_pie_chart 0%nat "ALL" example_more_heap).1 =
      Ok (Pie "Total Successful Launches by Site" sA) /\
    (get_pie_chart 0%nat "A" example_more_heap).1 =
      Ok (Pie ("Successful vs. Failed Launches for site " +:+ "A") sS) /\
    total "Success" sS = total "A" sA.
Proof.
  apply (pie_success_matches_all example_more_heap 0%nat example_more_df "A");
    [reflexivity | col_in | col_in | discriminate].
Defined.

(** The pie callback on a dataset missing a column it reads: the "ALL" pie
    fails with pandas' KeyError on 'class' when that column is missing, and
    otherwise, when 'Launch Site' is missing, with plotly's ValueError on its
    [names] argument; the pie of a site raises pandas' KeyError on 'Launch
    Site' first, then on 'class'. *)
Theorem pie_missing_columns (h : heap) (l : loc) (ds : frame) (S : string) :
  h !! l = Some (CFrame ds) ->
  (col_class ∉ columns ds -> (get_pie_chart l "ALL" h).1 = Err (KeyError col_class)) /\
  (col_class ∈ columns ds -> col_site ∉ columns ds ->
     (get_pie_chart l "ALL" h).1 = Err (px_col_error "names" col_site)) /\
  (S <> "ALL" -> col_site ∉ columns ds -> (get_pie_chart l S h).1 = Err (KeyError col_site)) /\
  (S <> "ALL" -> col_site ∈ columns ds -> col_class ∉ columns ds ->
     (get_pie_chart l S h).1 = Err (KeyError col_class)).
Proof.
  intros Hl. split; [|split; [|split]].
  - intros Hc. rewrite (pie_all_eval _ _ _ Hl), decide_False by done. reflexivity.
  - intros Hc Hs. rewrite (pie_all_eval _ _ _ Hl), decide_True, decide_False by done.
    reflexivity.
  - intros HS Hs. rewrite (pie_site_eval _ _ _ _ Hl HS), decide_False by done. reflexivity.
  - intros HS Hs Hc. rewrite (pie_site_eval _ _ _ _ Hl HS), decide_True, decide_False by done.
    reflexivity.
Qed.

Lemma pie_missing_columns_witness :
  (get_pie_chart 0%nat "ALL" no_class_heap).1 = Err (KeyError col_class) /\
  (get_pie_chart 0%nat "A" no_class_heap).1 = Err (KeyError col_class) /\
  (get_pie_chart 0%nat "ALL" no_site_heap).1 = Err (px_col_error "names" col_site) /\
  (get_pie_chart 0%nat "A" no_site_heap).1 = Err (KeyError col_site).
Proof.
  destruct (pie_missing_columns no_class_heap 0%nat no_class_df "A" eq_refl)
    as (H1 & _ & _ & H4).
  destruct (pie_missing_columns no_site_heap 0%nat no_site_df "A" eq_refl)
    as (_ & H2 & H3 & _).
  split; [apply H1; col_in|]. split; [apply H4; [discriminate|col_in|col_in]|].
  split; [apply H2; col_in|]. apply H3; [discriminate|col_in].
Defined.

(** ** The scatter callback *)

Lemma in_range_widen a b a' b' r :
  (a' <= a)%Q -> (b <= b')%Q -> in_range a b r = true -> in_range a' b' r = true.
Proof.
  intros Ha Hb. rewrite !in_range_true. intros (p & Hp & H1 & H2).
  exists p. split; [done|]. split; eapply Qle_trans; eauto.
Qed.

Lemma in_range_empty a b r : (b < a)%Q -> in_range a b r = false.
Proof.
  intros Hba. destruct (in_range a b r) eqn:E; [|done].
  apply in_range_true in E as (p & _ & H1 & H2).
  exfalso. apply (Qlt_not_le _ _ Hba). eapply Qle_trans; eauto.
Qed.

Lemma filter_all_false {X} (P : X -> Prop) `{forall x, Decision (P x)} (l : list X) :
  (forall x, ~ P x) -> filter P l = [].
Proof. intros HP. induction l; [done|]. rewrite filter_cons_False; auto. Qed.

(** An interval whose lower bound exceeds its upper bound selects no row:
    on a dataset with the four columns the scatter is an empty chart with
    the usual title, for every site. *)
Theorem scatter_empty_interval (h : heap) (l : loc) (ds : frame) (S : string)
    (low high : pyval) :
  h !! l = Some (CFrame ds) -> well_formed ds ->
  is_number low = true -> is_number high = true -> (num_val high < num_val low)%Q ->
  (get_scatter_chart l S (PyList [low; high]) h).1 = Ok (Scatter (scatter_title S) []).
Proof.
  intros Hl (Hp & Hs & Hc & Hb) Hlo Hhi Hlt.
  rewrite (scatter_result _ _ _ _ _ Hl). simpl unpack2. cbv iota.
  assert (Hpr : payload_rows low high ds = []).
  { unfold payload_rows. rewrite Hlo, Hhi. simpl.
    apply filter_all_false. intros r. rewrite in_range_empty by done. discriminate. }
  rewrite decide_True by done. rewrite Hpr.
  destruct (decide (S = "ALL")).
  - rewrite px_scatter_result_wf by done. reflexivity.
  - rewrite decide_True by done. rewrite px_scatter_result_wf by done. reflexivity.
Qed.

Lemma scatter_empty_interval_witness :
  (get_scatter_chart 0%nat "A" (PyList [PyInt 9000; PyFloat 500%Q]) example_heap).1 =
    Ok (Scatter (scatter_title "A") []).
Proof.
  apply (scatter_empty_interval example_heap 0%nat example_df "A" (PyInt 9000) (PyFloat 500%Q));
    [reflexivity | split; [|split; [|split]]; col_in | reflexivity | reflexivity
    | vm_compute; reflexivity].
Defined.

(** Widening the numeric interval never removes a point: every row plotted
    for [low, high] is plotted, at least as often, for any interval
    [low', high'] containing it, for the same site (inclusion of the plotted
    rows as multisets; the order of the points is not claimed). *)
Theorem scatter_interval_monotone (h : heap) (l : loc) (ds : frame) (S : string)
    (low high low' high' : pyval) :
  h !! l = Some (CFrame ds) ->
  is_number low = true -> is_number high = true ->
  is_number low' = true -> is_number high' = true ->
  (num_val low' <= num_val low)%Q -> (num_val high <= num_val high')%Q ->
  forall t pts t' pts',
    (get_scatter_chart l S (PyList [low; high]) h).1 = Ok (Scatter t pts) ->
    (get_scatter_chart l S (PyList [low'; high']) h).1 = Ok (Scatter t' pts') ->
    pts ⊆+ pts'.
Proof.
  intros Hl Ha Hb Ha' Hb' Hlo Hhi t pts t' pts' E E'. apply sublist_submseteq.
  rewrite (scatter_result _ _ _ _ _ Hl) in E. rewrite (scatter_result _ _ _ _ _ Hl) in E'. simpl unpack2 in E, E'. cbv iota in E, E'.
  unfold payload_rows in E, E'. rewrite Ha, Hb in E. rewrite Ha', Hb' in E'. simpl in E, E'.
  assert (Hmono : forall x, in_range (num_val low) (num_val high) x = true ->
                            in_range (num_val low') (num_val high') x = true)
    by (intros x; apply in_range_widen; done).
  destruct (decide (col_payload ∈ columns ds)); [|injection E as <- <-; apply sublist_nil_l].
  destruct (decide (S = "ALL")).
  - apply px_scatter_result_ok in E as ([= -> ->] & _).
    apply px_scatter_result_ok in E' as ([= -> ->] & _). simpl.
    apply filter_sublist_mono. exact Hmono.
  - destruct (decide (col_site ∈ columns ds)); [|discriminate].
    apply px_scatter_result_ok in E as ([= -> ->] & _).
    apply px_scatter_result_ok in E' as ([= -> ->] & _). simpl.
    rewrite !list_filter_filter. apply filter_sublist_mono. intros x [H1 H2]. auto.
Qed.

Lemma scatter_interval_monotone_witness :
  exists t pts t' pts',
    (get_scatter_chart 0%nat "A" (PyList [PyInt 0; PyInt 1000]) example_heap).1 =
      Ok (Scatter t pts) /\
    (get_scatter_chart 0%nat "A" (PyList [PyInt 0; PyFloat 10000%Q]) example_heap).1 =
      Ok (Scatter t' pts') /\
    pts ⊆+ pts'.
Proof.
  do 4 eexists. split; [vm_compute; reflexivity|]. split; [vm_compute; reflexivity|].
  eapply (scatter_interval_monotone example_heap 0%nat example_df "A"
           (PyInt 0) (PyInt 1000) (PyInt 0) (PyFloat 10000%Q));
    first [reflexivity | vm_compute; discriminate | vm_compute; reflexivity].
Defined.

(** Whatever the site and the interval argument, a scatter chart plots rows
    of the dataset itself, each at most as often as it occurs there: its
    points are included in the rows as a multiset (their order is not
    claimed). *)
Theorem scatter_points_from_rows (h : heap) (l : loc) (ds : frame) (S : string) (v : pyval) :
  h !! l = Some (CFrame ds) ->
  forall t pts, (get_scatter_chart l S v h).1 = Ok (Scatter t pts) -> pts ⊆+ rows ds.
Proof.
  intros Hl t pts E. apply sublist_submseteq. rewrite (scatter_result _ _ _ _ _ Hl) in E.
  destruct (unpack2 v) as [[a b]|e]; [|discriminate].
  assert (Hpr : payload_rows a b ds `sublist_of` rows ds).
  { unfold payload_rows. destruct (is_number a && is_number b); [apply sublist_filter|done]. }
  destruct (decide (col_payload ∈ columns ds)); [|injection E as <- <-; apply sublist_nil_l].
  destruct (decide (S = "ALL")).
  - apply px_scatter_result_ok in E as ([= -> ->] & _). exact Hpr.
  - destruct (decide (col_site ∈ columns ds)); [|discriminate].
    apply px_scatter_result_ok in E as ([= -> ->] & _). simpl.
    etrans; [apply sublist_filter|exact Hpr].
Qed.

Lemma scatter_points_from_rows_witness :
  exists t pts,
    (get_scatter_chart 0%nat "B" (PyStr "xy") example_heap).1 = Ok (Scatter t pts) /\
    pts ⊆+ rows example_df.
Proof.
  do 2 eexists. split; [vm_compute; reflexivity|].
  eapply (scatter_points_from_rows example_heap 0%nat example_df "B" (PyStr "xy"));
    [reflexivity | vm_compute; reflexivity].
Defined.

(** On a dataset with the payload column but no 'Launch Site' column, the
    scatter of a site fails with a KeyError on 'Launch Site', while the
    "ALL" scatter, which never reads the site, still succeeds when the
    outcome and booster columns are present. *)
Theorem scatter_missing_site_column (h : heap) (l : loc) (ds : frame) (S : string)
    (v a b : pyval) :
  h !! l = Some (CFrame ds) -> col_payload ∈ columns ds -> col_site ∉ columns ds ->
  unpack2 v = Ok (a, b) ->
  (S <> "ALL" -> (get_scatter_chart l S v h).1 = Err (KeyError col_site)) /\
  (col_class ∈ columns ds -> col_booster ∈ columns ds ->
     (get_scatter_chart l "ALL" v h).1 =
       Ok (Scatter (scatter_title "ALL") (payload_rows a b ds))).
Proof.
  intros Hl Hp Hs Hv. split.
  - intros HS. rewrite (scatter_result _ _ _ _ _ Hl), Hv, decide_True, decide_False,
      decide_False by done. reflexivity.
  - intros Hc Hb. rewrite (scatter_result _ _ _ _ _ Hl), Hv, !decide_True by done.
    apply px_scatter_result_wf; done.
Qed.

Lemma scatter_missing_site_column_witness :
  (get_scatter_chart 0%nat "A" (PyList [PyInt 0; PyInt 1000]) no_site_heap).1 =
    Err (KeyError col_site) /\
  (get_scatter_chart 0%nat "ALL" (PyList [PyInt 0; PyInt 1000]) no_site_heap).1 =
    Ok (Scatter (scatter_title "ALL") (payload_rows (PyInt 0) (PyInt 1000) no_site_df)).
Proof.
  destruct (scatter_missing_site_column no_site_heap 0%nat no_site_df "A"
              (PyList [PyInt 0; PyInt 1000]) (PyInt 0) (PyInt 1000)) as [H1 H2];
    [reflexivity | col_in | col_in | reflexivity |].
  split; [apply H1; discriminate | apply H2; col_in].
Defined.

(** ** Startup *)

(** A site literally named "ALL" cannot be told apart: its dropdown option
    has the same value as the "All Sites" option, and selecting it shows the
    pie of all sites. *)
Theorem layout_site_named_all (ds : frame) (L : layout) (h : heap) (l : loc) :
  build_layout ds = Ok L -> "ALL" ∈ map launch_site (rows ds) ->
  ("All Sites", "ALL") ∈ dd_options (site_dropdown L) /\
  ("ALL", "ALL") ∈ dd_options (site_dropdown L) /\
  ~ NoDup (map snd (dd_options (site_dropdown L))) /\
  (h !! l = Some (CFrame ds) -> col_class ∈ columns ds ->
     exists slices, (get_pie_chart l "ALL" h).1 =
       Ok (Pie "Total Successful Launches by Site" slices)).
Proof.
  unfold build_layout. intros H Hin.
  destruct (decide (col_payload ∉ columns ds)) as [|Hp]; [discriminate|].
  destruct (decide (col_site ∉ columns ds)) as [|Hs]; [discriminate|].
  injection H as <-. simpl. apply dec_stable in Hs.
  assert (Hu : "ALL" ∈ unique (map launch_site (rows ds))).
  { unfold unique. rewrite unique_aux_elem. split; [apply not_elem_of_nil|exact Hin]. }
  split; [apply elem_of_cons; left; reflexivity|].
  split; [apply elem_of_cons; right; apply list_elem_of_In, in_map_iff;
          exists "ALL"; split; [reflexivity|apply list_elem_of_In; exact Hu]|].
  split.
  - rewrite map_map. simpl. rewrite map_id. rewrite NoDup_cons. intros [Hn _]. exact (Hn Hu).
  - intros Hl Hc. rewrite (pie_all_eval _ _ _ Hl), !decide_True by tauto.
    eexists. reflexivity.
Qed.

Lemma layout_site_named_all_witness :
  exists L, build_layout all_named_df = Ok L /\
  (("All Sites", "ALL") ∈ dd_options (site_dropdown L) /\
   ("ALL", "ALL") ∈ dd_options (site_dropdown L) /\
   ~ NoDup (map snd (dd_options (site_dropdown L))) /\
   ([CFrame all_named_df] !! 0%nat = Some (CFrame all_named_df) ->
    col_class ∈ columns all_named_df ->
      exists slices, (get_pie_chart 0%nat "ALL" [CFrame all_named_df]).1 =
        Ok (Pie "Total Successful Launches by Site" slices))).
Proof.
  eexists. split; [vm_compute; reflexivity|].
  apply layout_site_named_all; [vm_compute; reflexivity|col_in].
Defined.




